(** * A shallow embedding of [src/lambda/sns_to_glue/app.py]

    The Lambda function that receives Bridge upload notifications, resolves
    each JSON file of an uploaded archive to a JSON Schema through
    archive-map.json ([get_json_schema]), validates the files
    ([validate_data]) and groups the records by app and study before it
    starts one Glue workflow per group ([lambda_handler]).

    Conventions of the model.
    - Python [str] values are Rocq [string]s read as UTF-8 byte sequences.
    - A Python exception is a value of [exn]; a call that may raise returns
      a [result].
    - External services (S3, the schema host, Synapse, Glue) and the
      [jsonschema] library are the fields of an [Env] record: every theorem
      quantifies over them.
    - [json.loads], [int], [re.search], [os.path.basename] and
      [os.path.dirname] are library code that decides claims, so they are
      written out below. *)

From Stdlib Require Import String Ascii List ZArith Bool Lia.
Import ListNotations.
Open Scope string_scope.
#[local] Set Warnings "-register-all".

(* ------------------------------------------------------------------ *)
(** ** Python exceptions and the error monad *)

Inductive exn : Type :=
| KeyError (k : string)
| ValueError
| TypeError
| JSONDecodeError
| UnicodeDecodeError
| RequestException
| ClientError
| BadZipFile.

Inductive result (A : Type) : Type :=
| Ok (a : A)
| Err (e : exn).
Arguments Ok {A} a.
Arguments Err {A} e.

Definition rbind {A B} (m : result A) (k : A -> result B) : result B :=
  match m with
  | Ok a => k a
  | Err e => Err e
  end.

Notation "'let*' x := m 'in' k" := (rbind m (fun x => k))
  (at level 200, x binder, m at level 100, k at level 200).

(* ------------------------------------------------------------------ *)
(** ** Small string helpers *)

Definition code (c : ascii) : nat := nat_of_ascii c.

Definition is_digit (c : ascii) : bool :=
  Nat.leb 48 (code c) && Nat.leb (code c) 57.

Definition digit_val (c : ascii) : Z := Z.of_nat (code c - 48).

Fixpoint digits_to_Z (acc : Z) (s : string) : Z :=
  match s with
  | EmptyString => acc
  | String c r => digits_to_Z (acc * 10 + digit_val c) r
  end.

(** Longest prefix of digits, and the rest. *)
Fixpoint span_digits (s : string) : string * string :=
  match s with
  | String c r =>
      if is_digit c then let (d, t) := span_digits r in (String c d, t)
      else (EmptyString, s)
  | EmptyString => (EmptyString, EmptyString)
  end.

Fixpoint strip_prefix (p s : string) : option string :=
  match p, s with
  | EmptyString, _ => Some s
  | String a p', String b s' => if Ascii.eqb a b then strip_prefix p' s' else None
  | String _ _, EmptyString => None
  end.

Fixpoint take_while (f : ascii -> bool) (s : string) : string :=
  match s with
  | String c r => if f c then String c (take_while f r) else EmptyString
  | EmptyString => EmptyString
  end.

Fixpoint drop_while (f : ascii -> bool) (s : string) : string :=
  match s with
  | String c r => if f c then drop_while f r else s
  | EmptyString => EmptyString
  end.

Fixpoint rev_string (s : string) : string :=
  match s with
  | EmptyString => EmptyString
  | String c r => rev_string r ++ String c EmptyString
  end.

(* ------------------------------------------------------------------ *)
(** ** Python's [int(x)] for a [str] or [None] (base 10)

    [int(s)] strips ASCII whitespace (space, \t, \n, \v, \f, \r) around the
    literal, accepts one optional sign, then decimal digits in which single
    underscores may separate two digits.  [int(None)] raises [TypeError].
    Non-ASCII digits and spaces, which Python also accepts, are outside the
    model: such a string raises [ValueError] here. *)

Definition py_isspace (c : ascii) : bool :=
  let n := code c in Nat.eqb n 32 || (Nat.leb 9 n && Nat.leb n 13).

(** Digits with single underscores between two digits; the first character
    has been checked to be a digit. *)
Fixpoint py_digits (acc : Z) (s : string) : option Z :=
  match s with
  | EmptyString => Some acc
  | String c r =>
      if is_digit c then py_digits (acc * 10 + digit_val c) r
      else if Ascii.eqb c "_" then
        match r with
        | String d r' => if is_digit d then py_digits (acc * 10 + digit_val d) r'
                         else None
        | EmptyString => None
        end
      else None
  end.

Definition py_int_str (s : string) : result Z :=
  let t := rev_string (drop_while py_isspace
             (rev_string (drop_while py_isspace s))) in
  let '(sign, body) :=
    match t with
    | String c r => if Ascii.eqb c "-" then (-1, r)%Z
                    else if Ascii.eqb c "+" then (1, r)%Z else (1%Z, t)
    | EmptyString => (1%Z, t)
    end in
  match body with
  | String c r =>
      if is_digit c then
        match py_digits (digit_val c) r with
        | Some z => Ok (sign * z)%Z
        | None => Err ValueError
        end
      else Err ValueError
  | EmptyString => Err ValueError
  end.

Definition py_int (x : option string) : result Z :=
  match x with
  | None => Err TypeError
  | Some s => py_int_str s
  end.

(* ------------------------------------------------------------------ *)
(** ** JSON values and Python's [json.loads]

    A decoded JSON document as Python holds it: [None], [bool], [int],
    [float] (kept as its lexeme), [str], [list] and [dict].  A [dict] is an
    association list in insertion order with unique keys. *)

Inductive json : Type :=
| JNull
| JBool (b : bool)
| JInt (z : Z)
| JFloat (lexeme : string)
| JStr (s : string)
| JArr (l : list json)
| JObj (l : list (string * json)).

(** [d[k] = v] on a Python dict: an existing key keeps its position. *)
Fixpoint dict_set {V : Type} (k : string) (v : V) (d : list (string * V))
  : list (string * V) :=
  match d with
  | [] => [(k, v)]
  | (k', v') :: r => if String.eqb k k' then (k, v) :: r else (k', v') :: dict_set k v r
  end.

Fixpoint dict_get {V : Type} (k : string) (d : list (string * V)) : option V :=
  match d with
  | [] => None
  | (k', v) :: r => if String.eqb k k' then Some v else dict_get k r
  end.

(** [d[k]] for a value [d] decoded from JSON: [KeyError] on a dict without
    [k], [TypeError] when [d] is not a dict. *)
Definition json_getitem (d : json) (k : string) : result json :=
  match d with
  | JObj l => match dict_get k l with Some v => Ok v | None => Err (KeyError k) end
  | _ => Err TypeError
  end.

Definition dquote : ascii := ascii_of_nat 34.
Definition backslash : ascii := ascii_of_nat 92.

Definition json_ws (c : ascii) : bool :=
  let n := code c in Nat.eqb n 32 || Nat.eqb n 9 || Nat.eqb n 10 || Nat.eqb n 13.

Definition skip_ws (s : string) : string := drop_while json_ws s.

Definition hex_val (c : ascii) : option N :=
  let n := code c in
  if Nat.leb 48 n && Nat.leb n 57 then Some (N.of_nat (n - 48))
  else if Nat.leb 97 n && Nat.leb n 102 then Some (N.of_nat (n - 87))
  else if Nat.leb 65 n && Nat.leb n 70 then Some (N.of_nat (n - 55))
  else None.

(** Exactly four hex digits, as the C scanner of [json] reads [\uXXXX]. *)
Definition hex4 (s : string) : option (N * string) :=
  match s with
  | String a (String b (String c (String d r))) =>
      match hex_val a, hex_val b, hex_val c, hex_val d with
      | Some x, Some y, Some z, Some w => Some (((x * 16 + y) * 16 + z) * 16 + w, r)%N
      | _, _, _, _ => None
      end
  | _ => None
  end.

Definition byte (n : N) : string := String (ascii_of_N n) EmptyString.

Definition utf8_encode (n : N) : string :=
  if (n <? 128)%N then byte n
  else if (n <? 2048)%N then byte (192 + n / 64) ++ byte (128 + n mod 64)
  else if (n <? 65536)%N then
    byte (224 + n / 4096) ++ byte (128 + (n / 64) mod 64) ++ byte (128 + n mod 64)
  else byte (240 + n / 262144) ++ byte (128 + (n / 4096) mod 64)
       ++ byte (128 + (n / 64) mod 64) ++ byte (128 + n mod 64).

Definition simple_escape (e : ascii) : option ascii :=
  if Ascii.eqb e dquote then Some dquote
  else if Ascii.eqb e backslash then Some backslash
  else if Ascii.eqb e "/" then Some "/"%char
  else if Ascii.eqb e "b" then Some (ascii_of_nat 8)
  else if Ascii.eqb e "f" then Some (ascii_of_nat 12)
  else if Ascii.eqb e "n" then Some (ascii_of_nat 10)
  else if Ascii.eqb e "r" then Some (ascii_of_nat 13)
  else if Ascii.eqb e "t" then Some (ascii_of_nat 9)
  else None.

(** A high surrogate followed by [\u] and a low surrogate is one code
    point; otherwise the code unit stands alone. *)
Definition join_surrogate (n : N) (r : string) : option (N * string) :=
  if (55296 <=? n)%N && (n <=? 56319)%N then
    match r with
    | String b (String u r3) =>
        if Ascii.eqb b backslash && Ascii.eqb u "u" then
          match hex4 r3 with
          | Some (m, r4) =>
              if (56320 <=? m)%N && (m <=? 57343)%N
              then Some (65536 + (n - 55296) * 1024 + (m - 56320), r4)%N
              else Some (n, r)
          | None => None
          end
        else Some (n, r)
    | _ => Some (n, r)
    end
  else Some (n, r).

(** The body of a string literal after its opening quote (strict mode:
    control characters are refused). *)
Fixpoint scan_string (fuel : nat) (s : string) : result (string * string) :=
  match fuel with
  | O => Err JSONDecodeError
  | S f =>
    match s with
    | EmptyString => Err JSONDecodeError
    | String c r =>
      if Ascii.eqb c dquote then Ok (EmptyString, r)
      else if Ascii.eqb c backslash then
        match r with
        | EmptyString => Err JSONDecodeError
        | String e r' =>
          if Ascii.eqb e "u" then
            match hex4 r' with
            | None => Err JSONDecodeError
            | Some (n, r'') =>
              match join_surrogate n r'' with
              | None => Err JSONDecodeError
              | Some (cp, rest) =>
                let* p := scan_string f rest in
                Ok (utf8_encode cp ++ fst p, snd p)
              end
            end
          else match simple_escape e with
               | Some ch => let* p := scan_string f r' in Ok (String ch (fst p), snd p)
               | None => Err JSONDecodeError
               end
        end
      else if Nat.ltb (code c) 32 then Err JSONDecodeError
      else let* p := scan_string f r in Ok (String c (fst p), snd p)
    end
  end.

(** The number pattern of [json.scanner]: an optional minus, then [0] or a
    nonzero digit and more digits, then optionally a dot and at least one
    digit, then optionally [e] or [E], an optional sign and at least one
    digit.  An [int] without fraction and exponent, a [float] otherwise. *)
Definition scan_number (s : string) : option (json * string) :=
  let '(neg, s1) :=
    match s with
    | String c r => if Ascii.eqb c "-" then (true, r) else (false, s)
    | EmptyString => (false, s)
    end in
  let int_part :=
    match s1 with
    | String c r =>
        if Ascii.eqb c "0" then Some ("0", r)
        else if is_digit c then let (d, t) := span_digits r in Some (String c d, t)
        else None
    | EmptyString => None
    end in
  match int_part with
  | None => None
  | Some (ip, s2) =>
    let '(frac, s3) :=
      match s2 with
      | String p r =>
          if Ascii.eqb p "." then
            let (d, t) := span_digits r in
            if String.eqb d "" then (None, s2) else (Some ("." ++ d), t)
          else (None, s2)
      | EmptyString => (None, s2)
      end in
    let '(ex, s4) :=
      match s3 with
      | String e r =>
          if Ascii.eqb e "e" || Ascii.eqb e "E" then
            let '(sg, r') :=
              match r with
              | String c r2 =>
                  if Ascii.eqb c "+" || Ascii.eqb c "-"
                  then (String c EmptyString, r2) else (EmptyString, r)
              | EmptyString => (EmptyString, r)
              end in
            let (d, t) := span_digits r' in
            if String.eqb d "" then (None, s3) else (Some (String e (sg ++ d)), t)
          else (None, s3)
      | EmptyString => (None, s3)
      end in
    match frac, ex with
    | None, None => Some (JInt ((if neg then -1 else 1) * digits_to_Z 0 ip)%Z, s4)
    | _, _ =>
      Some (JFloat ((if neg then "-" else "") ++ ip
                    ++ match frac with Some f => f | None => "" end
                    ++ match ex with Some x => x | None => "" end), s4)
    end
  end.

Definition starts_with (p s : string) : option string := strip_prefix p s.

(** [scan_once] of the C scanner, with the array and object parsers.  The
    fuel bounds the nesting depth and the number of members; [json_loads]
    gives it the length of the input, which every nesting level and every
    member consumes at least one character of. *)
Fixpoint scan_once (fuel : nat) (s : string) : result (json * string) :=
  match fuel with
  | O => Err JSONDecodeError
  | S f =>
    let fix obj_loop (g : nat) (s : string) (acc : list (string * json))
        : result (json * string) :=
      match g with
      | O => Err JSONDecodeError
      | S g' =>
        match s with
        | String q r =>
          if Ascii.eqb q dquote then
            let* p1 := scan_string (S (String.length r)) r in
            match skip_ws (snd p1) with
            | String col s3 =>
              if Ascii.eqb col ":" then
                let* p2 := scan_once f (skip_ws s3) in
                let acc' := dict_set (fst p1) (fst p2) acc in
                match skip_ws (snd p2) with
                | String d s6 =>
                  if Ascii.eqb d "}" then Ok (JObj acc', s6)
                  else if Ascii.eqb d "," then obj_loop g' (skip_ws s6) acc'
                  else Err JSONDecodeError
                | EmptyString => Err JSONDecodeError
                end
              else Err JSONDecodeError
            | EmptyString => Err JSONDecodeError
            end
          else Err JSONDecodeError
        | EmptyString => Err JSONDecodeError
        end
      end in
    let fix arr_loop (g : nat) (s : string) (acc : list json)
        : result (json * string) :=
      match g with
      | O => Err JSONDecodeError
      | S g' =>
        let* p := scan_once f s in
        match skip_ws (snd p) with
        | String d s3 =>
          if Ascii.eqb d "]" then Ok (JArr (rev (fst p :: acc)), s3)
          else if Ascii.eqb d "," then arr_loop g' (skip_ws s3) (fst p :: acc)
          else Err JSONDecodeError
        | EmptyString => Err JSONDecodeError
        end
      end in
    match s with
    | EmptyString => Err JSONDecodeError
    | String c r =>
      if Ascii.eqb c dquote then
        let* p := scan_string (S (String.length r)) r in Ok (JStr (fst p), snd p)
      else if Ascii.eqb c "{" then
        match skip_ws r with
        | String d r' => if Ascii.eqb d "}" then Ok (JObj [], r')
                         else obj_loop f (String d r') []
        | EmptyString => Err JSONDecodeError
        end
      else if Ascii.eqb c "[" then
        match skip_ws r with
        | String d r' => if Ascii.eqb d "]" then Ok (JArr [], r')
                         else arr_loop f (String d r') []
        | EmptyString => Err JSONDecodeError
        end
      else match starts_with "null" s with Some r' => Ok (JNull, r') | None =>
           match starts_with "true" s with Some r' => Ok (JBool true, r') | None =>
           match starts_with "false" s with Some r' => Ok (JBool false, r') | None =>
           match scan_number s with Some p => Ok p | None =>
           match starts_with "NaN" s with Some r' => Ok (JFloat "NaN", r') | None =>
           match starts_with "Infinity" s with Some r' => Ok (JFloat "Infinity", r') | None =>
           match starts_with "-Infinity" s with
           | Some r' => Ok (JFloat "-Infinity", r')
           | None => Err JSONDecodeError
           end end end end end end end
    end
  end.

(** [json.loads(s)] for a [str]: surrounding JSON whitespace is allowed,
    anything else after the document is "Extra data". *)
Definition json_loads (s : string) : result json :=
  let s0 := skip_ws s in
  let* p := scan_once (S (String.length s0)) s0 in
  match skip_ws (snd p) with
  | EmptyString => Ok (fst p)
  | String _ _ => Err JSONDecodeError
  end.

(* ------------------------------------------------------------------ *)
(** ** [parse_client_info_metadata] *)

(** [re.search(key + "[^,]+", s)]: the leftmost place where [key] is
    followed by at least one character other than a comma; the greedy run
    of such characters after [key]. *)
Fixpoint re_search_value (key s : string) : option string :=
  match s with
  | EmptyString => None
  | String _ r =>
    match strip_prefix key s with
    | Some rest =>
      match take_while (fun c => negb (Ascii.eqb c ",")) rest with
      | EmptyString => re_search_value key r
      | run => Some run
      end
    | None => re_search_value key r
    end
  end.

(** [m.group().split("=")[1]] for a match [key ++ run] whose [key] ends in
    its only [=]: the part of [run] before its first [=]. *)
Definition group_split_1 (run : string) : string :=
  take_while (fun c => negb (Ascii.eqb c "=")) run.

Definition parse_client_info_metadata (client_info_str : string) : result json :=
  match json_loads client_info_str with
  | Ok client_info => Ok client_info
  | Err _ =>
    let app_version :=
      option_map group_split_1 (re_search_value "appVersion=" client_info_str) in
    let os_name :=
      option_map group_split_1 (re_search_value "osName=" client_info_str) in
    let* v := py_int app_version in
    Ok (JObj [("appVersion", JInt v);
              ("osName", match os_name with Some o => JStr o | None => JNull end);
              ("appName", JStr "mobile-toolbox")])
  end.


(* ------------------------------------------------------------------ *)
(** ** archive-map.json

    The entries of [assessments[].files], [apps[].default.files] and
    [apps[].anyOf] carry a [jsonSchema] (the code reads it unguarded); the
    entries of the top-level [anyOf] may lack it (the code tests
    ["jsonSchema" in file]). *)

Record file_entry : Type := {
  filename : string;
  jsonSchema : string }.

Record any_entry : Type := {
  any_filename : string;
  any_jsonSchema : option string }.

Record assessment : Type := {
  assessmentIdentifier : string;
  assessmentRevision : Z;
  files : list file_entry }.

Record assessment_ref : Type := {
  ref_assessmentIdentifier : string;
  ref_assessmentRevision : Z }.

Record app : Type := {
  appId : string;
  app_assessments : list assessment_ref;
  default_files : list file_entry;
  app_anyOf : list file_entry }.

Record archive_map : Type := {
  assessments : list assessment;
  apps : list app;
  anyOf : list any_entry }.

(** The dict [json_schema_obj] built by [get_json_schema]. *)
Record json_schema_obj : Type := {
  url : option string;
  allowed_app_specific_files : option bool;
  error : option (list string);
  archive_map_version : option string }.

Definition set_url (u : string) (o : json_schema_obj) : json_schema_obj :=
  {| url := Some u; allowed_app_specific_files := allowed_app_specific_files o;
     error := error o; archive_map_version := archive_map_version o |}.

Definition set_allowed (b : bool) (o : json_schema_obj) : json_schema_obj :=
  {| url := url o; allowed_app_specific_files := Some b;
     error := error o; archive_map_version := archive_map_version o |}.

Definition set_error (e : list string) (o : json_schema_obj) : json_schema_obj :=
  {| url := url o; allowed_app_specific_files := allowed_app_specific_files o;
     error := Some e; archive_map_version := archive_map_version o |}.

(** Python's [==] between a [str] and a value decoded from JSON. *)
Definition py_eq_str (s : string) (v : json) : bool :=
  match v with JStr t => String.eqb s t | _ => false end.

(** [for file in files: if file["filename"] == file_name: ... break]:
    the [jsonSchema] of the first entry with that name. *)
Fixpoint first_file (fs : list file_entry) (file_name : string) : option string :=
  match fs with
  | [] => None
  | f :: r => if String.eqb (filename f) file_name then Some (jsonSchema f)
              else first_file r file_name
  end.

Definition assessment_matches (assessment_id : string) (assessment_revision : Z)
    (a : assessment) : bool :=
  String.eqb (assessmentIdentifier a) assessment_id
  && Z.eqb (assessmentRevision a) assessment_revision.

(** The first loop of [get_json_schema]: over [archive_map["assessments"]],
    returning as soon as a matching assessment lists [file_name]. *)
Fixpoint assessment_loop (l : list assessment) (file_name assessment_id : string)
    (assessment_revision : Z) : option string :=
  match l with
  | [] => None
  | a :: r =>
    if assessment_matches assessment_id assessment_revision a then
      match first_file (files a) file_name with
      | Some u => Some u
      | None => assessment_loop r file_name assessment_id assessment_revision
      end
    else assessment_loop r file_name assessment_id assessment_revision
  end.

Definition declares (assessment_id : string) (assessment_revision : Z)
    (a : app) : bool :=
  existsb (fun r => String.eqb (ref_assessmentIdentifier r) assessment_id
                    && Z.eqb (ref_assessmentRevision r) assessment_revision)
          (app_assessments a).

(** One iteration of [for app in archive_map["apps"]]. *)
Definition app_step (file_name : string) (app_id : json) (assessment_id : string)
    (assessment_revision : Z) (o : json_schema_obj) (a : app) : json_schema_obj :=
  if py_eq_str (appId a) app_id then
    let allowed := declares assessment_id assessment_revision a in
    let o1 := set_allowed allowed o in
    if allowed then
      let o2 := match first_file (default_files a) file_name with
                | Some u => set_url u o1
                | None => o1
                end in
      match first_file (app_anyOf a) file_name with
      | Some u => set_url u o2
      | None => o2
      end
    else o1
  else o.

Definition app_loop (l : list app) (file_name : string) (app_id : json)
    (assessment_id : string) (assessment_revision : Z) (o : json_schema_obj)
  : json_schema_obj :=
  fold_left (app_step file_name app_id assessment_id assessment_revision) l o.

(** [for file in archive_map["anyOf"]: if file["filename"] == file_name and
    "jsonSchema" in file: ... break] *)
Fixpoint first_any (l : list any_entry) (file_name : string) : option string :=
  match l with
  | [] => None
  | f :: r =>
    match any_jsonSchema f with
    | Some u => if String.eqb (any_filename f) file_name then Some u
                else first_any r file_name
    | None => first_any r file_name
    end
  end.

(** [get_json_schema]; [env_version] is [os.environ.get("archive_map_version")]. *)
Definition get_json_schema (am : archive_map) (file_name : string) (app_id : json)
    (assessment_id : string) (assessment_revision : Z) (env_version : option string)
  : json_schema_obj :=
  let o0 := {| url := None; allowed_app_specific_files := None; error := None;
               archive_map_version := env_version |} in
  match assessment_loop (assessments am) file_name assessment_id assessment_revision with
  | Some u => set_url u o0
  | None =>
    let o1 := app_loop (apps am) file_name app_id assessment_id assessment_revision o0 in
    match url o1 with
    | Some _ => o1
    | None =>
      match first_any (anyOf am) file_name with
      | Some u => set_url u o1
      | None => o1
      end
    end
  end.

(* ------------------------------------------------------------------ *)
(** ** [os.path.basename] and [os.path.dirname] (posixpath) *)

Definition not_slash (c : ascii) : bool := negb (Ascii.eqb c "/").

(** [p[p.rfind('/') + 1:]] *)
Definition basename (p : string) : string :=
  rev_string (take_while not_slash (rev_string p)).

(** [head = p[:p.rfind('/') + 1]], then trailing slashes removed unless
    [head] is all slashes. *)
Definition dirname (p : string) : string :=
  let head_rev := drop_while not_slash (rev_string p) in
  let stripped := drop_while (fun c => Ascii.eqb c "/") head_rev in
  match stripped with
  | EmptyString => rev_string head_rev
  | String _ _ => rev_string stripped
  end.

(* ------------------------------------------------------------------ *)
(** ** External collaborators and the effect monad *)

Record message_parameters : Type := {
  source_bucket : string;
  source_key : string;
  raw_folder_id : string }.

Record s3_object : Type := {
  Metadata : list (string * string);
  Body : string }.

Definition creds := string.

(** The outside world of one invocation.  [zip_members] reads the archive
    ([zipfile.ZipFile(...).namelist()] with each member's bytes, in
    [namelist] order); [requests_get_json] is [requests.get(url).json()];
    [iter_errors] is the list of [e.message] of the [jsonschema] validator
    chosen by [validator_for(schema)] with its [RefResolver]. *)
Record Env : Type := {
  get_sts_storage_token : string -> result creds;
  get_object : creds -> string -> string -> result s3_object;
  zip_members : string -> result (list (string * string));
  requests_get_json : string -> result json;
  iter_errors : json -> json -> string -> result (list string);
  start_workflow_run : string -> result string;
  put_workflow_run_properties : string -> string -> list message_parameters -> result unit;
  env_NAMESPACE : option string;
  env_archive_map_version : option string;
  env_invalid_sqs : option string }.

(** The dict [validation_result] of [validate_data]. *)
Record validation_result : Type := {
  assessmendId : string;
  vr_assessmentRevision : Z;
  vr_appId : json;
  recordId : string;
  errors : list (string * json_schema_obj) }.

(** Calls to the outside world, in the order they are made.
    [SendToQueue] is a message put on an SQS queue. *)
Inductive event : Type :=
| GetStsToken (folder : string)
| GetObject (bucket key : string)
| GetSchema (u : string)
| SendToQueue (queue : option string) (vr : validation_result)
| StartWorkflowRun (name : string)
| PutWorkflowRunProperties (name run_id : string) (msgs : list message_parameters).

(** State-and-exception monad over the trace of calls; the trace made up to
    an exception is kept. *)
Definition M (A : Type) : Type := list event -> result A * list event.

Definition ret {A} (a : A) : M A := fun t => (Ok a, t).

Definition bind {A B} (m : M A) (k : A -> M B) : M B :=
  fun t => match m t with
           | (Ok a, t') => k a t'
           | (Err e, t') => (Err e, t')
           end.

Definition lift {A} (r : result A) : M A := fun t => (r, t).

Definition call {A} (ev : event) (r : result A) : M A := fun t => (r, List.app t [ev]).

Notation "x <- m ;; k" := (bind m (fun x => k))
  (at level 61, m at next level, right associativity).

(* ------------------------------------------------------------------ *)
(** ** [validate_data] *)

Definition meta (o : s3_object) (k : string) : result string :=
  match dict_get k (Metadata o) with Some v => Ok v | None => Err (KeyError k) end.

(** [json.load] on a zip member reads bytes, and [json.loads] turns them
    into a [str] with [s.decode(detect_encoding(s), "surrogatepass")]
    before it parses them.  The decoded text is given in the model's
    representation of a [str]: the UTF-8 encoding of its code points (a
    lone surrogate as its three-byte form, as [utf8_encode] writes it). *)

Inductive encoding : Type :=
| Utf8 | Utf8Sig | Utf16 | Utf16BE | Utf16LE | Utf32 | Utf32BE | Utf32LE.

Definition has_prefix (p s : string) : bool :=
  match strip_prefix p s with Some _ => true | None => false end.

Definition is_zero (c : ascii) : bool := Nat.eqb (code c) 0.

Definition BOM_UTF8 : string := byte 239 ++ byte 187 ++ byte 191.
Definition BOM_UTF16_BE : string := byte 254 ++ byte 255.
Definition BOM_UTF16_LE : string := byte 255 ++ byte 254.
Definition BOM_UTF32_BE : string := byte 0 ++ byte 0 ++ byte 254 ++ byte 255.
Definition BOM_UTF32_LE : string := byte 255 ++ byte 254 ++ byte 0 ++ byte 0.

(** [json.detect_encoding]. *)
Definition detect_encoding (b : string) : encoding :=
  if has_prefix BOM_UTF32_BE b || has_prefix BOM_UTF32_LE b then Utf32
  else if has_prefix BOM_UTF16_BE b || has_prefix BOM_UTF16_LE b then Utf16
  else if has_prefix BOM_UTF8 b then Utf8Sig
  else match b with
       | String b0 (String b1 (String b2 (String b3 _))) =>
         if is_zero b0 then (if negb (is_zero b1) then Utf16BE else Utf32BE)
         else if is_zero b1 then
           (if negb (is_zero b2) || negb (is_zero b3) then Utf16LE else Utf32LE)
         else Utf8
       | String b0 (String b1 EmptyString) =>
         if is_zero b0 then Utf16BE
         else if is_zero b1 then Utf16LE
         else Utf8
       | _ => Utf8
       end.

Definition in_range (lo hi : nat) (c : ascii) : bool :=
  Nat.leb lo (code c) && Nat.leb (code c) hi.

(** The byte sequences the [utf-8] codec accepts with [surrogatepass]: the
    well-formed UTF-8 sequences, and [ED A0..BF 80..BF] (an encoded
    surrogate), which the error handler lets through. *)
Fixpoint utf8_valid (s : string) : bool :=
  match s with
  | EmptyString => true
  | String c r =>
    let n := code c in
    if Nat.ltb n 128 then utf8_valid r
    else if Nat.leb 194 n && Nat.leb n 223 then
      match r with
      | String c1 r1 => in_range 128 191 c1 && utf8_valid r1
      | EmptyString => false
      end
    else if Nat.leb 224 n && Nat.leb n 239 then
      match r with
      | String c1 (String c2 r2) =>
        in_range (if Nat.eqb n 224 then 160 else 128) 191 c1 && in_range 128 191 c2
        && utf8_valid r2
      | _ => false
      end
    else if Nat.leb 240 n && Nat.leb n 244 then
      match r with
      | String c1 (String c2 (String c3 r3)) =>
        in_range (if Nat.eqb n 240 then 144 else 128) (if Nat.eqb n 244 then 143 else 191) c1
        && in_range 128 191 c2 && in_range 128 191 c3 && utf8_valid r3
      | _ => false
      end
    else false
  end.

Definition nbyte (c : ascii) : N := N_of_ascii c.

(** The 16-bit code units of a [utf-16-be] or [utf-16-le] payload; an odd
    trailing byte is "truncated data". *)
Fixpoint utf16_units (be : bool) (s : string) : option (list N) :=
  match s with
  | EmptyString => Some []
  | String a (String b r) =>
    let u := if be then (nbyte a * 256 + nbyte b)%N else (nbyte b * 256 + nbyte a)%N in
    match utf16_units be r with Some us => Some (u :: us) | None => None end
  | String _ EmptyString => None
  end.

Definition is_high (u : N) : bool := (55296 <=? u)%N && (u <=? 56319)%N.
Definition is_low (u : N) : bool := (56320 <=? u)%N && (u <=? 57343)%N.

(** A high surrogate followed by a low surrogate is one code point; with
    [surrogatepass] any other surrogate unit stands for itself. *)
Fixpoint utf16_join (us : list N) : list N :=
  match us with
  | [] => []
  | u :: tl =>
    match tl with
    | v :: rest =>
      if is_high u && is_low v then (65536 + (u - 55296) * 1024 + (v - 56320))%N :: utf16_join rest
      else u :: utf16_join tl
    | [] => [u]
    end
  end.

(** The code points of a [utf-32-be] or [utf-32-le] payload: a length that
    is not a multiple of four is "truncated data", a unit above [0x10FFFF]
    is "code point not in range"; surrogates pass. *)
Fixpoint utf32_points (be : bool) (s : string) : option (list N) :=
  match s with
  | EmptyString => Some []
  | String a (String b (String c (String d r))) =>
    let u := if be then (((nbyte a * 256 + nbyte b) * 256 + nbyte c) * 256 + nbyte d)%N
             else (((nbyte d * 256 + nbyte c) * 256 + nbyte b) * 256 + nbyte a)%N in
    if (1114111 <? u)%N then None
    else match utf32_points be r with Some us => Some (u :: us) | None => None end
  | _ => None
  end.

Definition points_to_str (cps : list N) : string :=
  fold_right (fun cp acc => utf8_encode cp ++ acc) EmptyString cps.

Definition decode_utf16 (be : bool) (s : string) : result string :=
  match utf16_units be s with
  | Some us => Ok (points_to_str (utf16_join us))
  | None => Err UnicodeDecodeError
  end.

Definition decode_utf32 (be : bool) (s : string) : result string :=
  match utf32_points be s with
  | Some cps => Ok (points_to_str cps)
  | None => Err UnicodeDecodeError
  end.

Definition decode_utf8 (s : string) : result string :=
  if utf8_valid s then Ok s else Err UnicodeDecodeError.

(** [b.decode(encoding, "surrogatepass")]: the [utf-8-sig], [utf-16] and
    [utf-32] codecs drop the byte order mark that [detect_encoding] saw, and
    the latter two take their byte order from it. *)
Definition decode_bytes (b : string) : result string :=
  match detect_encoding b with
  | Utf8 => decode_utf8 b
  | Utf8Sig =>
    match strip_prefix BOM_UTF8 b with Some r => decode_utf8 r | None => decode_utf8 b end
  | Utf16 =>
    match strip_prefix BOM_UTF16_BE b with
    | Some r => decode_utf16 true r
    | None =>
      match strip_prefix BOM_UTF16_LE b with
      | Some r => decode_utf16 false r
      | None => decode_utf16 false b
      end
    end
  | Utf16BE => decode_utf16 true b
  | Utf16LE => decode_utf16 false b
  | Utf32 =>
    match strip_prefix BOM_UTF32_BE b with
    | Some r => decode_utf32 true r
    | None =>
      match strip_prefix BOM_UTF32_LE b with
      | Some r => decode_utf32 false r
      | None => decode_utf32 false b
      end
    end
  | Utf32BE => decode_utf32 true b
  | Utf32LE => decode_utf32 false b
  end.

(** [json.load(p)] on a zip member opened in binary mode: the bytes are
    decoded as above (a [UnicodeDecodeError] is raised on a payload the
    codec refuses), then parsed as by [json.loads] on a [str]. *)
Definition json_load (data : string) : result json :=
  let* text := decode_bytes data in json_loads text.

Definition validate_against_schema (env : Env) (data schema : json) (base_uri : string)
  : result (list string) :=
  iter_errors env data schema base_uri.

(** The loop [for json_path in contents] of [validate_data]. *)
Fixpoint validate_files (env : Env) (am : archive_map) (app_id : json)
    (assessment_id : string) (assessment_revision : Z)
    (contents : list (string * string)) (errs : list (string * json_schema_obj))
  : M (list (string * json_schema_obj)) :=
  match contents with
  | [] => ret errs
  | (json_path, data) :: rest =>
    let file_name := basename json_path in
    let o := get_json_schema am file_name app_id assessment_id assessment_revision
                             (env_archive_map_version env) in
    match url o with
    | None => validate_files env am app_id assessment_id assessment_revision rest errs
    | Some u =>
      json_schema <- call (GetSchema u) (requests_get_json env u) ;;
      let base_uri := dirname u in
      j <- lift (json_load data) ;;
      if String.eqb json_path "taskData.json" then
        validate_files env am app_id assessment_id assessment_revision rest errs
      else
        all_errors <- lift (validate_against_schema env j json_schema base_uri) ;;
        match all_errors with
        | [] => validate_files env am app_id assessment_id assessment_revision rest errs
        | _ :: _ =>
          validate_files env am app_id assessment_id assessment_revision rest
            (dict_set file_name (set_error all_errors o) errs)
        end
    end
  end.

Definition validate_data (env : Env) (mp : message_parameters) (am : archive_map)
    (sts_tokens : list (string * creds)) : M validation_result :=
  c <- lift (match dict_get (raw_folder_id mp) sts_tokens with
             | Some c => Ok c
             | None => Err (KeyError (raw_folder_id mp))
             end) ;;
  s3_obj <- call (GetObject (source_bucket mp) (source_key mp))
                 (get_object env c (source_bucket mp) (source_key mp)) ;;
  assessment_id <- lift (meta s3_obj "assessmentid") ;;
  rev_str <- lift (meta s3_obj "assessmentrevision") ;;
  assessment_revision <- lift (py_int (Some rev_str)) ;;
  ci_str <- lift (meta s3_obj "clientinfo") ;;
  client_info <- lift (parse_client_info_metadata ci_str) ;;
  app_id <- lift (json_getitem client_info "appName") ;;
  record_id <- lift (meta s3_obj "recordid") ;;
  contents <- lift (zip_members env (Body s3_obj)) ;;
  errs <- validate_files env am app_id assessment_id assessment_revision contents [] ;;
  ret {| assessmendId := assessment_id; vr_assessmentRevision := assessment_revision;
         vr_appId := app_id; recordId := record_id; errors := errs |}.

(* ------------------------------------------------------------------ *)
(** ** [update_sts_tokens], [mark_as_invalid] and [lambda_handler] *)

Definition update_sts_tokens (env : Env) (synapse_data_folder : string)
    (sts_tokens : list (string * creds)) : M (list (string * creds)) :=
  match dict_get synapse_data_folder sts_tokens with
  | Some _ => ret sts_tokens
  | None =>
    sts_token <- call (GetStsToken synapse_data_folder)
                      (get_sts_storage_token env synapse_data_folder) ;;
    ret (dict_set synapse_data_folder sts_token sts_tokens)
  end.

(** Its body is [pass]. *)
Definition mark_as_invalid (vr : validation_result) (sqs_queue : option string) : M unit :=
  ret tt.

(** One decoded SNS message of [event["Records"]]: [message["record"]]'s
    S3 location and folder, [message["appId"]] and the keys of
    [message["studyRecords"]] in dict order. *)
Record message : Type := {
  s3Bucket : string;
  s3Key : string;
  rawFolderId : string;
  msg_appId : string;
  studyRecords : list string }.

(** [messages], indexed by app and study. *)
Definition groups := list (string * list (string * list message_parameters)).

(** The body of [for study in related_studies]. *)
Definition add_study (messages : groups) (a : string) (study : string)
    (mp : message_parameters) : groups :=
  let messages1 :=
    match dict_get a messages with
    | Some _ => messages
    | None => dict_set a [(study, [])] messages
    end in
  match dict_get a messages1 with
  | Some by_study =>
    match dict_get study by_study with
    | Some l => dict_set a (dict_set study (l ++ [mp])%list by_study) messages1
    | None => dict_set a (dict_set study [mp] by_study) messages1
    end
  | None => messages1
  end.

Definition add_record (messages : groups) (a : string) (related_studies : list string)
    (mp : message_parameters) : groups :=
  fold_left (fun m study => add_study m a study mp) related_studies messages.

Definition params_of (m : message) : message_parameters :=
  {| source_bucket := s3Bucket m; source_key := s3Key m; raw_folder_id := rawFolderId m |}.

(** The body of [for record in event["Records"]]: it threads [messages]
    and [sts_tokens]. *)
Definition record_step (env : Env) (am : archive_map) (m : message)
    (messages : groups) (sts_tokens : list (string * creds))
  : M (groups * list (string * creds)) :=
  let mp := params_of m in
  sts_tokens' <- update_sts_tokens env (raw_folder_id mp) sts_tokens ;;
  vr <- validate_data env mp am sts_tokens' ;;
  _ <- (match errors vr with
        | [] => ret tt
        | _ :: _ => mark_as_invalid vr (env_invalid_sqs env)
        end) ;;
  ret (add_record messages (msg_appId m) (studyRecords m) mp, sts_tokens').

(** The loop [for record in event["Records"]]. *)
Fixpoint process_records (env : Env) (am : archive_map) (records : list message)
    (messages : groups) (sts_tokens : list (string * creds)) : M groups :=
  match records with
  | [] => ret messages
  | m :: rest =>
    p <- record_step env am m messages sts_tokens ;;
    process_records env am rest (fst p) (snd p)
  end.

(** An f-string renders [None] as ["None"]. *)
Definition fmt_opt (o : option string) : string :=
  match o with Some s => s | None => "None" end.

Definition workflow_name (env : Env) (a study : string) : string :=
  fmt_opt (env_NAMESPACE env) ++ "-" ++ a ++ "-" ++ study ++ "-S3ToJsonWorkflow".

Fixpoint dispatch_studies (env : Env) (a : string)
    (by_study : list (string * list message_parameters)) : M unit :=
  match by_study with
  | [] => ret tt
  | (study, msgs) :: rest =>
    let name := workflow_name env a study in
    run_id <- call (StartWorkflowRun name) (start_workflow_run env name) ;;
    _ <- call (PutWorkflowRunProperties name run_id msgs)
              (put_workflow_run_properties env name run_id msgs) ;;
    dispatch_studies env a rest
  end.

Fixpoint dispatch (env : Env) (messages : groups) : M unit :=
  match messages with
  | [] => ret tt
  | (a, by_study) :: rest => _ <- dispatch_studies env a by_study ;; dispatch env rest
  end.

(** [lambda_handler] from the loop over the records on; the Glue, SSM and
    Synapse clients and the archive map fetched before it are given. *)
Definition lambda_handler (env : Env) (am : archive_map) (records : list message)
  : M unit :=
  messages <- process_records env am records [] [] ;;
  dispatch env messages.

(* ------------------------------------------------------------------ *)
(** ** Readers of the aggregated groups *)

(** [messages[a][study]], or the empty list when absent. *)
Definition group_of (g : groups) (a study : string) : list message_parameters :=
  match dict_get a g with
  | Some by_study => match dict_get study by_study with Some l => l | None => [] end
  | None => []
  end.

(** The fold of [add_record] over the records, as the loop performs it. *)
Definition aggregate (records : list message) : groups :=
  fold_left (fun g m => add_record g (msg_appId m) (studyRecords m) (params_of m))
            records [].

(** The [allowed_app_specific_files] the app loop leaves: that of the last
    app entry whose [appId] equals [app_id]. *)
Definition last_app_flag (l : list app) (app_id : json) (assessment_id : string)
    (assessment_revision : Z) : option bool :=
  fold_left (fun acc a => if py_eq_str (appId a) app_id
                          then Some (declares assessment_id assessment_revision a)
                          else acc) l None.

(** [a] with its app-specific file lists replaced when it does not declare
    the assessment. *)
Definition replace_undeclared (assessment_id : string) (assessment_revision : Z)
    (df af : app -> list file_entry) (a : app) : app :=
  if declares assessment_id assessment_revision a then a
  else {| appId := appId a; app_assessments := app_assessments a;
          default_files := df a; app_anyOf := af a |}.

(* ------------------------------------------------------------------ *)
(** ** Concrete inputs *)

(* ------------------------------------------------------------------ *)
(** ** Predicates used by the theorems *)

Definition sro (o : json_schema_obj) : option string * option bool * option (list string) :=
  (url o, allowed_app_specific_files o, error o).

(** The study lists a record contributes to group [(a, s)]. *)
Definition contribution (a s : string) (m : message) : list message_parameters :=
  if String.eqb a (msg_appId m)
  then map (fun _ => params_of m) (filter (String.eqb s) (studyRecords m)) else [].

(** An event that is not a Glue call. *)
Definition no_glue (ev : event) : Prop :=
  match ev with
  | StartWorkflowRun _ | PutWorkflowRunProperties _ _ _ => False
  | _ => True
  end.

(** No event of the run sends a record to the invalid-records queue. *)
Definition no_queue (ev : event) : Prop :=
  match ev with
  | SendToQueue _ _ => False
  | _ => True
  end.

(** Every event a run of [m] appends satisfies [P]. *)
Definition emits_only (P : event -> Prop) {A} (m : M A) : Prop :=
  forall t r t', m t = (r, t') -> exists s, t' = (t ++ s)%list /\ Forall P s.

(** A computation that appends no Glue call to the trace. *)
Definition quiet {A} (m : M A) : Prop := emits_only no_glue m.


(** The calls [validate_data] may make: the S3 read and schema fetches. *)
Definition validation_event (ev : event) : Prop :=
  match ev with
  | GetObject _ _ | GetSchema _ => True
  | _ => False
  end.

(** The folders whose STS token a trace requested, in order. *)
Fixpoint sts_folders (s : list event) : list string :=
  match s with
  | [] => []
  | GetStsToken f :: r => f :: sts_folders r
  | _ :: r => sts_folders r
  end.

(** A Glue call. *)
Definition glue_event (ev : event) : Prop :=
  match ev with
  | StartWorkflowRun _ | PutWorkflowRunProperties _ _ _ => True
  | _ => False
  end.

(** The schema fetches of the file loop: one [requests.get] per member whose
    basename resolves to a URL, in member order. *)
Fixpoint schema_fetches (env : Env) (am : archive_map) (app_id : json) (aid : string)
    (rev : Z) (contents : list (string * string)) : list event :=
  match contents with
  | [] => []
  | (p, _) :: rest =>
    match url (get_json_schema am (basename p) app_id aid rev (env_archive_map_version env)) with
    | Some u => GetSchema u :: schema_fetches env am app_id aid rev rest
    | None => schema_fetches env am app_id aid rev rest
    end
  end.

(** The member [p] with bytes [d] is not [taskData.json], its schema
    resolves and is fetched, its data decodes, and the validator reports
    the non-empty list [e]. *)
Definition failing_member (env : Env) (am : archive_map) (app_id : json) (aid : string)
    (rev : Z) (p d : string) (e : list string) : Prop :=
  p <> "taskData.json" /\ e <> [] /\
  exists u sch j,
    url (get_json_schema am (basename p) app_id aid rev (env_archive_map_version env))
      = Some u /\
    requests_get_json env u = Ok sch /\ json_load d = Ok j /\
    iter_errors env j sch (dirname u) = Ok e.



(** The shape of [messages]: each app once, each study once per app, and
    no empty list of message parameters. *)
Definition well_grouped (g : groups) : Prop :=
  NoDup (map fst g) /\
  forall a by_study, In (a, by_study) g ->
    NoDup (map fst by_study) /\ forall study l, In (study, l) by_study -> l <> [].

(** The (app, study, message parameters) triples of [messages], in the
    order of [for app in messages: for study in messages[app]]. *)
Definition glue_plan (g : groups) : list (string * string * list message_parameters) :=
  flat_map (fun p => map (fun q => (fst p, fst q, snd q)) (snd p)) g.

(** The Glue calls for those triples: a workflow run started under the
    group's name, then given the group's list under the run id that
    [start_workflow_run] returned. *)
Definition glue_calls (env : Env) (plan : list (string * string * list message_parameters))
  : list event :=
  flat_map (fun x =>
    let '(a, study, l) := x in
    let name := workflow_name env a study in
    match start_workflow_run env name with
    | Ok rid => [StartWorkflowRun name; PutWorkflowRunProperties name rid l]
    | Err _ => [StartWorkflowRun name]
    end) plan.


Module Sample.

Definition q : string := String dquote EmptyString.

Definition x_a1 : file_entry := {| filename := "x.json"; jsonSchema := "http://s/a1.json" |}.

Definition a1 : assessment :=
  {| assessmentIdentifier := "A1"; assessmentRevision := 1; files := [x_a1] |}.

(** The archive map of the spec's example: assessment A1 revision 1 maps
    [x.json]; app1 declares A1/1 and maps [x.json] in its [anyOf]. *)
Definition app1 : app :=
  {| appId := "app1";
     app_assessments := [{| ref_assessmentIdentifier := "A1"; ref_assessmentRevision := 1 |}];
     default_files := [];
     app_anyOf := [{| filename := "x.json"; jsonSchema := "http://s/default.json" |}] |}.

Definition am_spec : archive_map :=
  {| assessments := [a1]; apps := [app1]; anyOf := [] |}.

(** App [mtb] declares A1/1 and maps [x.json] both in [default.files] and in
    [anyOf]; no assessment entry maps it. *)
Definition app_both : app :=
  {| appId := "mobile-toolbox";
     app_assessments := [{| ref_assessmentIdentifier := "A1"; ref_assessmentRevision := 1 |}];
     default_files := [{| filename := "x.json"; jsonSchema := "http://s/default.json" |}];
     app_anyOf := [{| filename := "x.json"; jsonSchema := "http://s/anyof.json" |}] |}.

Definition am_both : archive_map :=
  {| assessments := []; apps := [app_both]; anyOf := [] |}.

(** Two entries for A1/1 that both map [x.json]. *)
Definition a1_bis : assessment :=
  {| assessmentIdentifier := "A1"; assessmentRevision := 1;
     files := [{| filename := "x.json"; jsonSchema := "http://s/a1-bis.json" |}] |}.

Definition am_dup : archive_map :=
  {| assessments := [a1; a1_bis]; apps := []; anyOf := [] |}.

(** App1 does not declare A1/1, while assessment A1/1 maps [x.json]. *)
Definition app1_undeclared : app :=
  {| appId := "app1"; app_assessments := []; default_files := [];
     app_anyOf := [{| filename := "x.json"; jsonSchema := "http://s/default.json" |}] |}.

Definition am_undeclared : archive_map :=
  {| assessments := [a1]; apps := [app1_undeclared]; anyOf := [] |}.

(** A deployment: assessment A1/1 maps [x.json], [y.json] and
    [taskData.json]; the schema of [y.json] cannot be fetched; a payload with a key [a] violates
    every schema. *)
Definition am_run : archive_map :=
  {| assessments := [{| assessmentIdentifier := "A1"; assessmentRevision := 1;
                        files := [x_a1;
                                  {| filename := "y.json";
                                     jsonSchema := "http://s/unreachable.json" |};
                                  {| filename := "taskData.json";
                                     jsonSchema := "http://s/taskdata.json" |}] |}];
     apps := []; anyOf := [] |}.

Definition metadata (client_info : string) : list (string * string) :=
  [("assessmentid", "A1"); ("assessmentrevision", "1");
   ("clientinfo", client_info); ("recordid", "rec")].

Definition payload_bad : string := "{" ++ q ++ "a" ++ q ++ ": 1}".

Definition env_run : Env :=
  {| get_sts_storage_token := fun folder => Ok ("token-" ++ folder);
     get_object := fun _ _ key =>
       Ok {| Metadata := metadata "appVersion=3,osName=iOS"; Body := key |};
     zip_members := fun body =>
       if String.eqb body "valid.zip" then Ok [("x.json", "{}")]
       else if String.eqb body "invalid.zip" then Ok [("x.json", payload_bad)]
       else if String.eqb body "unreachable.zip" then Ok [("y.json", "{}")]
       else if String.eqb body "taskdata.zip"
       then Ok [("taskData.json", payload_bad); ("z.json", payload_bad)]
       else if String.eqb body "taskdata_broken.zip" then Ok [("taskData.json", "{")]
       else Err BadZipFile;
     requests_get_json := fun u =>
       if String.eqb u "http://s/unreachable.json" then Err RequestException
       else Ok (JObj []);
     iter_errors := fun data _ _ =>
       match data with
       | JObj [] => Ok []
       | _ => Ok ["Additional properties are not allowed"]
       end;
     start_workflow_run := fun name => Ok ("run-" ++ name);
     put_workflow_run_properties := fun _ _ _ => Ok tt;
     env_NAMESPACE := Some "ns";
     env_archive_map_version := Some "v1";
     env_invalid_sqs := Some "invalid-queue" |}.

Definition record (key : string) (a : string) (studies : list string) : message :=
  {| s3Bucket := "bucket"; s3Key := key; rawFolderId := "syn1";
     msg_appId := a; studyRecords := studies |}.

Definition mp_of (key : string) : message_parameters :=
  {| source_bucket := "bucket"; source_key := key; raw_folder_id := "syn1" |}.

(** Record 1 (app1, study s1) is valid; record 2 (app1, studies s1 and s2)
    holds the exempt [taskData.json], whose schema resolves, and a [z.json]
    with no schema. *)
Definition rec1 : message := record "valid.zip" "app1" ["s1"].
Definition rec2 : message := record "taskdata.zip" "app1" ["s1"; "s2"].

(** A record whose [x.json] violates its schema, and one whose [y.json]
    has a schema that cannot be fetched. *)
Definition rec_invalid : message := record "invalid.zip" "app1" ["s1"].
Definition rec_unreachable : message := record "unreachable.zip" "app1" ["s1"].

Definition groups_12 : groups :=
  [("app1", [("s1", [mp_of "valid.zip"; mp_of "taskdata.zip"]);
             ("s2", [mp_of "taskdata.zip"])])].

Definition trace_12 : list event :=
  [GetStsToken "syn1"; GetObject "bucket" "valid.zip"; GetSchema "http://s/a1.json";
   GetObject "bucket" "taskdata.zip"; GetSchema "http://s/taskdata.json"].

(** The calls of [lambda_handler] on [rec1] then [rec2]. *)
Definition run_12 : list event :=
  [GetStsToken "syn1"; GetObject "bucket" "valid.zip"; GetSchema "http://s/a1.json";
   GetObject "bucket" "taskdata.zip"; GetSchema "http://s/taskdata.json";
   StartWorkflowRun "ns-app1-s1-S3ToJsonWorkflow";
   PutWorkflowRunProperties "ns-app1-s1-S3ToJsonWorkflow" "run-ns-app1-s1-S3ToJsonWorkflow"
     [mp_of "valid.zip"; mp_of "taskdata.zip"];
   StartWorkflowRun "ns-app1-s2-S3ToJsonWorkflow";
   PutWorkflowRunProperties "ns-app1-s2-S3ToJsonWorkflow" "run-ns-app1-s2-S3ToJsonWorkflow"
     [mp_of "taskdata.zip"]].

(** [env_run] with another [clientinfo] header on every object. *)
Definition env_ci (client_info : string) : Env :=
  {| get_sts_storage_token := get_sts_storage_token env_run;
     get_object := fun _ _ key =>
       Ok {| Metadata := metadata client_info; Body := key |};
     zip_members := zip_members env_run;
     requests_get_json := requests_get_json env_run;
     iter_errors := iter_errors env_run;
     start_workflow_run := start_workflow_run env_run;
     put_workflow_run_properties := put_workflow_run_properties env_run;
     env_NAMESPACE := env_NAMESPACE env_run;
     env_archive_map_version := env_archive_map_version env_run;
     env_invalid_sqs := env_invalid_sqs env_run |}.

End Sample.

(* ------------------------------------------------------------------ *)
(** * Lemmas about the resolver *)

Lemma first_file_in : forall fs f fe,
  In fe fs -> filename fe = f -> exists u, first_file fs f = Some u.
Proof.
  induction fs as [|g fs IH]; simpl; intros f fe Hin Hf; [contradiction|].
  destruct (String.eqb (filename g) f) eqn:E; [eauto|].
  destruct Hin as [<-|Hin].
  - subst f. rewrite String.eqb_refl in E. discriminate.
  - eauto.
Qed.

Lemma assessment_loop_in : forall l f aid rev e fe,
  In e l -> assessment_matches aid rev e = true -> In fe (files e) -> filename fe = f ->
  exists u, assessment_loop l f aid rev = Some u.
Proof.
  induction l as [|a l IH]; simpl; intros f aid rev e fe Hin Hm Hfe Hf; [contradiction|].
  destruct Hin as [<-|Hin].
  - rewrite Hm. destruct (first_file_in _ _ _ Hfe Hf) as [u Hu]. rewrite Hu. eauto.
  - destruct (assessment_matches aid rev a); [destruct (first_file (files a) f)|]; eauto.
Qed.

Lemma app_step_sro : forall f app_id aid rev o o' a,
  sro o = sro o' ->
  sro (app_step f app_id aid rev o a) = sro (app_step f app_id aid rev o' a).
Proof.
  unfold sro, app_step; intros f app_id aid rev o o' a H.
  injection H as Hu Ha He.
  destruct (py_eq_str (appId a) app_id); [|cbn; congruence].
  destruct (declares aid rev a); [|cbn; congruence].
  destruct (first_file (default_files a) f), (first_file (app_anyOf a) f); cbn; congruence.
Qed.

Lemma app_step_version : forall f app_id aid rev o a,
  archive_map_version (app_step f app_id aid rev o a) = archive_map_version o.
Proof.
  unfold app_step; intros.
  destruct (py_eq_str (appId a) app_id); [|reflexivity].
  destruct (declares aid rev a); [|reflexivity].
  destruct (first_file (default_files a) f), (first_file (app_anyOf a) f); reflexivity.
Qed.

Lemma app_loop_sro : forall l f app_id aid rev o o',
  sro o = sro o' ->
  sro (app_loop l f app_id aid rev o) = sro (app_loop l f app_id aid rev o').
Proof.
  unfold app_loop; induction l as [|a l IH]; simpl; intros; [assumption|].
  apply IH, app_step_sro, H.
Qed.

Lemma app_loop_version : forall l f app_id aid rev o,
  archive_map_version (app_loop l f app_id aid rev o) = archive_map_version o.
Proof.
  unfold app_loop; induction l as [|a l IH]; simpl; intros; [reflexivity|].
  rewrite IH. apply app_step_version.
Qed.

Lemma app_loop_allowed : forall l f app_id aid rev o,
  allowed_app_specific_files (app_loop l f app_id aid rev o)
  = fold_left (fun acc a => if py_eq_str (appId a) app_id
                            then Some (declares aid rev a) else acc)
              l (allowed_app_specific_files o).
Proof.
  unfold app_loop; induction l as [|a l IH]; simpl; intros; [reflexivity|].
  rewrite IH. f_equal. unfold app_step.
  destruct (py_eq_str (appId a) app_id); [|reflexivity].
  destruct (declares aid rev a); [|reflexivity].
  destruct (first_file (default_files a) f), (first_file (app_anyOf a) f); reflexivity.
Qed.

Lemma app_step_replace : forall f app_id aid rev df af o a,
  app_step f app_id aid rev o (replace_undeclared aid rev df af a)
  = app_step f app_id aid rev o a.
Proof.
  unfold replace_undeclared; intros.
  destruct (declares aid rev a) eqn:D; [reflexivity|].
  unfold app_step; simpl.
  unfold declares in *; simpl. rewrite D. reflexivity.
Qed.

Lemma app_loop_replace : forall l f app_id aid rev df af o,
  app_loop (map (replace_undeclared aid rev df af) l) f app_id aid rev o
  = app_loop l f app_id aid rev o.
Proof.
  unfold app_loop; induction l as [|a l IH]; simpl; intros; [reflexivity|].
  rewrite app_step_replace. apply IH.
Qed.

(* ------------------------------------------------------------------ *)
(** * The resolver: claims C1, C2, C9 and C10 *)

(** C1 (code_bug).  In the app tier the [default.files] loop [break]s on
    its first match, but the [anyOf] loop that follows runs unguarded: an
    [anyOf] entry with the same filename overwrites the URL found in
    [default.files] (the top-level [anyOf] loop, by contrast, only runs
    while the URL is still [None]). *)
Theorem C1_app_anyOf_overrides_default :
  first_file (default_files Sample.app_both) "x.json" = Some "http://s/default.json" /\
  url (get_json_schema Sample.am_both "x.json" (JStr "mobile-toolbox") "A1" 1 None)
  = Some "http://s/anyof.json".
Proof. split; reflexivity. Qed.

(** C2 (counterexample).  With two entries for the same assessment and
    revision that both list [x.json], the second entry matches and lists
    the file, yet [get_json_schema] returns the first entry's URL. *)
Lemma C2_counterexample :
  In Sample.a1_bis (assessments Sample.am_dup) /\
  assessment_matches "A1" 1 Sample.a1_bis = true /\
  first_file (files Sample.a1_bis) "x.json" = Some "http://s/a1-bis.json" /\
  url (get_json_schema Sample.am_dup "x.json" (JStr "app1") "A1" 1 None)
    <> Some "http://s/a1-bis.json".
Proof.
  split; [right; left; reflexivity|].
  split; [reflexivity|]. split; [reflexivity|]. vm_compute. discriminate.
Qed.

(** C2 (amended).  If some entry of [assessments] matches the assessment and
    revision exactly and lists the filename, then the assessment loop finds
    a URL (the [jsonSchema] of the first entry with that filename in the
    first matching assessment that lists it), and [get_json_schema] returns
    it at once: the result does not depend on the [apps] and [anyOf] of the
    archive map nor on the app id, and [allowed_app_specific_files] stays
    [None]. *)
Theorem C2_assessment_tier_dominates :
  forall am f aid rev v e fe,
  In e (assessments am) -> assessment_matches aid rev e = true ->
  In fe (files e) -> filename fe = f ->
  exists u, assessment_loop (assessments am) f aid rev = Some u /\
    forall apps' anyOf' app_id',
      get_json_schema {| assessments := assessments am; apps := apps'; anyOf := anyOf' |}
                      f app_id' aid rev v
      = {| url := Some u; allowed_app_specific_files := None; error := None;
           archive_map_version := v |}.
Proof.
  intros am f aid rev v e fe Hin Hm Hfe Hf.
  destruct (assessment_loop_in _ _ _ _ _ _ Hin Hm Hfe Hf) as [u Hu].
  exists u. split; [exact Hu|].
  intros apps' anyOf' app_id'. unfold get_json_schema. simpl. rewrite Hu. reflexivity.
Qed.

(** The spec's example: [x.json] of app1 for A1/1 resolves to
    [http://s/a1.json], not to the app's [anyOf] URL. *)
Lemma C2_assessment_tier_dominates_witness :
  In Sample.a1 (assessments Sample.am_spec) /\
  assessment_matches "A1" 1 Sample.a1 = true /\
  In Sample.x_a1 (files Sample.a1) /\ filename Sample.x_a1 = "x.json" /\
  (exists u, assessment_loop (assessments Sample.am_spec) "x.json" "A1" 1 = Some u /\
    forall apps' anyOf' app_id',
      get_json_schema {| assessments := assessments Sample.am_spec; apps := apps';
                         anyOf := anyOf' |} "x.json" app_id' "A1" 1 (Some "v1")
      = {| url := Some u; allowed_app_specific_files := None; error := None;
           archive_map_version := Some "v1" |}).
Proof.
  refine (conj (or_introl eq_refl) (conj eq_refl (conj (or_introl eq_refl) (conj eq_refl _)))).
  exact (C2_assessment_tier_dominates Sample.am_spec "x.json" "A1" 1
           (Some "v1") Sample.a1 Sample.x_a1 (or_introl eq_refl) eq_refl
           (or_introl eq_refl) eq_refl).
Defined.

(** C9 (counterexample).  App1 matches the app id and does not declare
    A1/1, but assessment A1/1 maps [x.json]: [get_json_schema] returns
    before the app loop and reports [allowed_app_specific_files = None],
    not [false]. *)
Lemma C9_counterexample :
  In Sample.app1_undeclared (apps Sample.am_undeclared) /\
  py_eq_str (appId Sample.app1_undeclared) (JStr "app1") = true /\
  declares "A1" 1 Sample.app1_undeclared = false /\
  allowed_app_specific_files
    (get_json_schema Sample.am_undeclared "x.json" (JStr "app1") "A1" 1 None)
  <> Some false.
Proof.
  split; [left; reflexivity|]. split; [reflexivity|]. split; [reflexivity|].
  vm_compute. discriminate.
Qed.

(** C9 (amended).  [allowed_app_specific_files] is [None] when the
    assessment tier resolves the file; otherwise it is the flag of the last
    app entry whose [appId] equals the app id ([Some false] when that entry
    does not declare the assessment and revision, [None] when no entry
    matches), whatever the URL turns out to be.  The [default.files] and
    [anyOf] lists of an app that does not declare the assessment and
    revision never affect the result: replacing them by arbitrary lists
    changes nothing. *)
Theorem C9_undeclared_app_files_ignored :
  forall am f app_id aid rev v (df af : app -> list file_entry),
  allowed_app_specific_files (get_json_schema am f app_id aid rev v)
    = match assessment_loop (assessments am) f aid rev with
      | Some _ => None
      | None => last_app_flag (apps am) app_id aid rev
      end /\
  get_json_schema {| assessments := assessments am;
                     apps := map (replace_undeclared aid rev df af) (apps am);
                     anyOf := anyOf am |} f app_id aid rev v
    = get_json_schema am f app_id aid rev v.
Proof.
  intros am f app_id aid rev v df af. unfold get_json_schema. simpl.
  rewrite app_loop_replace. split; [|reflexivity].
  destruct (assessment_loop (assessments am) f aid rev); [reflexivity|].
  set (o1 := app_loop (apps am) f app_id aid rev _).
  assert (H : allowed_app_specific_files o1 = last_app_flag (apps am) app_id aid rev)
    by (unfold o1; rewrite app_loop_allowed; reflexivity).
  destruct (url o1); [exact H|].
  destruct (first_any (anyOf am) f); [exact H|exact H].
Qed.

(** C10.  [get_json_schema] is a function of its arguments: for the same
    archive map, filename, app id, assessment id and revision, the [url],
    [allowed_app_specific_files] and [error] fields are the same whatever
    [os.environ["archive_map_version"]] is, and the [archive_map_version]
    field is that variable. *)
Theorem C10_resolve_deterministic :
  forall am f app_id aid rev v1 v2,
  sro (get_json_schema am f app_id aid rev v1) = sro (get_json_schema am f app_id aid rev v2) /\
  archive_map_version (get_json_schema am f app_id aid rev v1) = v1.
Proof.
  intros am f app_id aid rev v1 v2. unfold get_json_schema.
  destruct (assessment_loop (assessments am) f aid rev); [split; reflexivity|].
  set (o0 := fun v => {| url := None; allowed_app_specific_files := None;
                         error := None; archive_map_version := v |}).
  assert (Hs : sro (app_loop (apps am) f app_id aid rev (o0 v1))
               = sro (app_loop (apps am) f app_id aid rev (o0 v2)))
    by (apply app_loop_sro; reflexivity).
  pose proof (app_loop_version (apps am) f app_id aid rev (o0 v1)) as Hv.
  change (sro (match url (app_loop (apps am) f app_id aid rev (o0 v1)) with
               | Some _ => app_loop (apps am) f app_id aid rev (o0 v1)
               | None => match first_any (anyOf am) f with
                         | Some u => set_url u (app_loop (apps am) f app_id aid rev (o0 v1))
                         | None => app_loop (apps am) f app_id aid rev (o0 v1)
                         end
               end) =
          sro (match url (app_loop (apps am) f app_id aid rev (o0 v2)) with
               | Some _ => app_loop (apps am) f app_id aid rev (o0 v2)
               | None => match first_any (anyOf am) f with
                         | Some u => set_url u (app_loop (apps am) f app_id aid rev (o0 v2))
                         | None => app_loop (apps am) f app_id aid rev (o0 v2)
                         end
               end) /\
          archive_map_version
            (match url (app_loop (apps am) f app_id aid rev (o0 v1)) with
             | Some _ => app_loop (apps am) f app_id aid rev (o0 v1)
             | None => match first_any (anyOf am) f with
                       | Some u => set_url u (app_loop (apps am) f app_id aid rev (o0 v1))
                       | None => app_loop (apps am) f app_id aid rev (o0 v1)
                       end
             end) = v1).
  generalize dependent (app_loop (apps am) f app_id aid rev (o0 v1)).
  generalize (app_loop (apps am) f app_id aid rev (o0 v2)).
  intros o2 o1 Hs Hv. unfold sro in *. injection Hs as Hu Ha He.
  rewrite <- Hu. destruct (url o1) eqn:U.
  - unfold sro. rewrite U, <- Hu, Ha, He. split; [reflexivity|exact Hv].
  - destruct (first_any (anyOf am) f); unfold sro, set_url; cbn.
    + rewrite Ha, He. split; [reflexivity|exact Hv].
    + rewrite U, <- Hu, Ha, He. split; [reflexivity|exact Hv].
Qed.

(* ------------------------------------------------------------------ *)
(** * Lemmas about dicts, the monad and the aggregation *)

Lemma dict_get_set : forall {V} k k' (v : V) d,
  dict_get k (dict_set k' v d) = if String.eqb k k' then Some v else dict_get k d.
Proof.
  induction d as [|[k0 v0] d IH]; simpl.
  - reflexivity.
  - destruct (String.eqb_spec k' k0) as [->|Hne]; simpl.
    + destruct (String.eqb k k0); reflexivity.
    + rewrite IH. destruct (String.eqb_spec k k') as [->|]; [|reflexivity].
      apply String.eqb_neq in Hne. rewrite Hne. reflexivity.
Qed.

Lemma bind_ok_inv : forall {A B} (m : M A) (k : A -> M B) t b t',
  bind m k t = (Ok b, t') -> exists a t1, m t = (Ok a, t1) /\ k a t1 = (Ok b, t').
Proof.
  unfold bind; intros A B m k t b t' H.
  destruct (m t) as [[a|e] t1]; [eauto|discriminate].
Qed.

Lemma bind_err : forall {A B} (m : M A) (k : A -> M B) t e t1,
  m t = (Err e, t1) -> bind m k t = (Err e, t1).
Proof. unfold bind; intros A B m k t e t1 H. rewrite H. reflexivity. Qed.

Lemma bind_ok : forall {A B} (m : M A) (k : A -> M B) t a t1,
  m t = (Ok a, t1) -> bind m k t = k a t1.
Proof. unfold bind; intros A B m k t a t1 H. rewrite H. reflexivity. Qed.

Lemma group_of_add_study : forall g a' s' mp a s,
  group_of (add_study g a' s' mp) a s
  = (group_of g a s ++ if String.eqb a a' && String.eqb s s' then [mp] else [])%list.
Proof.
  intros. unfold group_of, add_study.
  destruct (String.eqb_spec a a') as [<-|Ha].
  - destruct (dict_get a g) as [bs|] eqn:G.
    + rewrite G. destruct (dict_get s' bs) as [l|] eqn:S;
        rewrite dict_get_set, String.eqb_refl; simpl; rewrite dict_get_set;
        destruct (String.eqb s s') eqn:E; simpl;
        try (apply String.eqb_eq in E; subst s'; rewrite S; reflexivity);
        rewrite app_nil_r; reflexivity.
    + rewrite dict_get_set, String.eqb_refl. simpl. rewrite String.eqb_refl.
      rewrite dict_get_set, String.eqb_refl. simpl.
      destruct (String.eqb s s'); reflexivity.
  - apply String.eqb_neq in Ha as Ha'. simpl.
    destruct (dict_get a' g) as [bs|] eqn:G.
    + rewrite G. destruct (dict_get s' bs); rewrite dict_get_set, Ha', app_nil_r; reflexivity.
    + rewrite dict_get_set, String.eqb_refl. simpl. rewrite String.eqb_refl.
      rewrite dict_get_set, Ha', dict_get_set, Ha', app_nil_r. reflexivity.
Qed.

Lemma group_of_add_record : forall studies g a' mp a s,
  group_of (add_record g a' studies mp) a s
  = (group_of g a s
     ++ if String.eqb a a' then map (fun _ => mp) (filter (String.eqb s) studies)
        else [])%list.
Proof.
  unfold add_record; induction studies as [|s' studies IH]; simpl; intros g a' mp a s.
  - destruct (String.eqb a a'); rewrite app_nil_r; reflexivity.
  - rewrite IH, group_of_add_study, <- app_assoc. f_equal.
    destruct (String.eqb a a'), (String.eqb s s'); reflexivity.
Qed.

Lemma group_of_fold : forall records g a s,
  group_of (fold_left (fun g m => add_record g (msg_appId m) (studyRecords m) (params_of m))
                      records g) a s
  = (group_of g a s ++ flat_map (contribution a s) records)%list.
Proof.
  induction records as [|m records IH]; simpl; intros g a s.
  - rewrite app_nil_r. reflexivity.
  - rewrite IH, group_of_add_record, <- app_assoc. reflexivity.
Qed.

Lemma record_step_groups : forall env am m messages sts t p t',
  record_step env am m messages sts t = (Ok p, t') ->
  fst p = add_record messages (msg_appId m) (studyRecords m) (params_of m).
Proof.
  unfold record_step; intros env am m messages sts t p t' H.
  apply bind_ok_inv in H as (sts' & t1 & _ & H).
  apply bind_ok_inv in H as (vr & t2 & _ & H).
  apply bind_ok_inv in H as (u & t3 & _ & H).
  unfold ret in H. injection H as <- _. reflexivity.
Qed.

Lemma process_records_groups : forall env am records messages sts t g t',
  process_records env am records messages sts t = (Ok g, t') ->
  g = fold_left (fun g m => add_record g (msg_appId m) (studyRecords m) (params_of m))
                records messages.
Proof.
  induction records as [|m records IH]; simpl; intros messages sts t g t' H.
  - unfold ret in H. injection H as <- _. reflexivity.
  - apply bind_ok_inv in H as (p & t1 & Hs & H).
    apply IH in H. rewrite H. apply record_step_groups in Hs. rewrite Hs. reflexivity.
Qed.

Example process_two_records :
  process_records Sample.env_run Sample.am_run [Sample.rec1; Sample.rec2] [] [] []
  = (Ok Sample.groups_12, Sample.trace_12).
Proof. vm_compute. reflexivity. Qed.

(* ------------------------------------------------------------------ *)
(** * Aggregation: claims C6 and C7 *)

(** C6.  Whenever the record loop of [lambda_handler] completes, the groups
    it built are the fold of [add_record] over the records in arrival order
    and depend on nothing else (not on the outside world, the archive map
    or the trace): two runs over the same record sequence build identical
    groups.  Group [(a, s)] lists, in arrival order, the parameters of each
    record of app [a] once per occurrence of [s] among its study keys. *)
Theorem C6_aggregation_ordered_deterministic :
  forall env1 env2 am1 am2 records t1 t2 g1 g2 t1' t2',
  process_records env1 am1 records [] [] t1 = (Ok g1, t1') ->
  process_records env2 am2 records [] [] t2 = (Ok g2, t2') ->
  g1 = g2 /\ g1 = aggregate records /\
  forall a s, group_of g1 a s = flat_map (contribution a s) records.
Proof.
  intros env1 env2 am1 am2 records t1 t2 g1 g2 t1' t2' H1 H2.
  apply process_records_groups in H1, H2. subst g1 g2.
  split; [reflexivity|]. split; [reflexivity|].
  intros a s. rewrite group_of_fold. reflexivity.
Qed.

Lemma C6_aggregation_ordered_deterministic_witness :
  process_records Sample.env_run Sample.am_run [Sample.rec1; Sample.rec2] [] [] []
    = (Ok Sample.groups_12, Sample.trace_12) /\
  (Sample.groups_12 = Sample.groups_12 /\
   Sample.groups_12 = aggregate [Sample.rec1; Sample.rec2] /\
   forall a s, group_of Sample.groups_12 a s
               = flat_map (contribution a s) [Sample.rec1; Sample.rec2]).
Proof.
  split; [vm_compute; reflexivity|].
  apply (C6_aggregation_ordered_deterministic Sample.env_run Sample.env_run
           Sample.am_run Sample.am_run [Sample.rec1; Sample.rec2] [] []
           Sample.groups_12 Sample.groups_12 Sample.trace_12 Sample.trace_12);
    vm_compute; reflexivity.
Defined.

(** C7.  One step of the study loop: a new app gets the one-element
    sequence [[mp]] under the study; a known app with a new study gets a
    new one-element sequence for it; a known (app, study) pair has [mp]
    appended.  In particular, whenever the record loop completes on two
    records of app1 with study keys [s1] and then [s1; s2], the groups are
    exactly [{app1: {s1: [rec1, rec2], s2: [rec2]}}]. *)
Theorem C7_aggregation_example :
  (forall g a s mp,
     dict_get a (add_study g a s mp)
     = Some (match dict_get a g with
             | None => [(s, [mp])]
             | Some by_study =>
               dict_set s (match dict_get s by_study with
                           | Some l => (l ++ [mp])%list
                           | None => [mp]
                           end) by_study
             end)) /\
  (forall env am r1 r2 t g t',
     msg_appId r1 = "app1" -> studyRecords r1 = ["s1"] ->
     msg_appId r2 = "app1" -> studyRecords r2 = ["s1"; "s2"] ->
     process_records env am [r1; r2] [] [] t = (Ok g, t') ->
     g = [("app1", [("s1", [params_of r1; params_of r2]); ("s2", [params_of r2])])]).
Proof.
  split.
  - intros g a s mp. unfold add_study.
    destruct (dict_get a g) as [bs|] eqn:G.
    + rewrite G. destruct (dict_get s bs); rewrite dict_get_set, String.eqb_refl; reflexivity.
    + rewrite dict_get_set, String.eqb_refl. simpl. rewrite String.eqb_refl.
      rewrite dict_get_set, String.eqb_refl. reflexivity.
  - intros env am r1 r2 t g t' A1 S1 A2 S2 H.
    apply process_records_groups in H. rewrite H. simpl.
    rewrite A1, S1, A2, S2. reflexivity.
Qed.

Lemma C7_aggregation_example_witness :
  msg_appId Sample.rec1 = "app1" /\ studyRecords Sample.rec1 = ["s1"] /\
  msg_appId Sample.rec2 = "app1" /\ studyRecords Sample.rec2 = ["s1"; "s2"] /\
  process_records Sample.env_run Sample.am_run [Sample.rec1; Sample.rec2] [] [] []
    = (Ok Sample.groups_12, Sample.trace_12) /\
  Sample.groups_12 = [("app1", [("s1", [params_of Sample.rec1; params_of Sample.rec2]);
                                ("s2", [params_of Sample.rec2])])].
Proof.
  split; [reflexivity|]. split; [reflexivity|]. split; [reflexivity|].
  split; [reflexivity|]. split; [vm_compute; reflexivity|].
  apply (proj2 C7_aggregation_example Sample.env_run Sample.am_run Sample.rec1 Sample.rec2
           [] Sample.groups_12 Sample.trace_12); try reflexivity.
Defined.

(* ------------------------------------------------------------------ *)
(** * Lemmas about [validate_data] and the trace *)

Lemma lift_ok_inv : forall {A} (r : result A) t a t1,
  lift r t = (Ok a, t1) -> r = Ok a /\ t1 = t.
Proof. unfold lift; intros A r t a t1 H. injection H as -> ->. auto. Qed.

Lemma call_ok_inv : forall {A} ev (r : result A) t a t1,
  call ev r t = (Ok a, t1) -> r = Ok a /\ t1 = (t ++ [ev])%list.
Proof. unfold call; intros A ev r t a t1 H. injection H as -> ->. auto. Qed.

(** What a successful [validate_data] read: the fields of its result are
    the header values, and its [errors] are those of the file loop started
    from the empty dict. *)
Lemma validate_data_ok_inv : forall env mp am sts t vr t',
  validate_data env mp am sts t = (Ok vr, t') ->
  exists c o rs cs ci contents t1,
    dict_get (raw_folder_id mp) sts = Some c /\
    get_object env c (source_bucket mp) (source_key mp) = Ok o /\
    meta o "assessmentid" = Ok (assessmendId vr) /\
    meta o "assessmentrevision" = Ok rs /\
    py_int (Some rs) = Ok (vr_assessmentRevision vr) /\
    meta o "clientinfo" = Ok cs /\
    parse_client_info_metadata cs = Ok ci /\
    json_getitem ci "appName" = Ok (vr_appId vr) /\
    meta o "recordid" = Ok (recordId vr) /\
    zip_members env (Body o) = Ok contents /\
    validate_files env am (vr_appId vr) (assessmendId vr) (vr_assessmentRevision vr)
                   contents [] t1 = (Ok (errors vr), t').
Proof.
  unfold validate_data; intros env mp am sts t vr t' H.
  apply bind_ok_inv in H as (c & t1 & H1 & H).
  apply lift_ok_inv in H1 as [H1 ->].
  destruct (dict_get (raw_folder_id mp) sts) as [c'|] eqn:Hc; [|discriminate].
  injection H1 as ->.
  apply bind_ok_inv in H as (o & t2 & H2 & H). apply call_ok_inv in H2 as [H2 ->].
  apply bind_ok_inv in H as (aid & t3 & H3 & H). apply lift_ok_inv in H3 as [H3 ->].
  apply bind_ok_inv in H as (rs & t4 & H4 & H). apply lift_ok_inv in H4 as [H4 ->].
  apply bind_ok_inv in H as (rev & t5 & H5 & H). apply lift_ok_inv in H5 as [H5 ->].
  apply bind_ok_inv in H as (cs & t6 & H6 & H). apply lift_ok_inv in H6 as [H6 ->].
  apply bind_ok_inv in H as (ci & t7 & H7 & H). apply lift_ok_inv in H7 as [H7 ->].
  apply bind_ok_inv in H as (app_id & t8 & H8 & H). apply lift_ok_inv in H8 as [H8 ->].
  apply bind_ok_inv in H as (rid & t9 & H9 & H). apply lift_ok_inv in H9 as [H9 ->].
  apply bind_ok_inv in H as (contents & t10 & H10 & H). apply lift_ok_inv in H10 as [H10 ->].
  apply bind_ok_inv in H as (errs & t11 & H11 & H).
  unfold ret in H. injection H as <- <-.
  exists c, o, rs, cs, ci, contents, (t ++ [GetObject (source_bucket mp) (source_key mp)])%list.
  simpl. repeat split; assumption.
Qed.

Lemma emits_ret : forall P {A} (a : A), emits_only P (ret a).
Proof.
  unfold emits_only, ret; intros P A a t r t' H. injection H as _ <-.
  exists []. rewrite app_nil_r. auto.
Qed.

Lemma emits_lift : forall P {A} (r : result A), emits_only P (lift r).
Proof.
  unfold emits_only, lift; intros P A r0 t r t' H. injection H as _ <-.
  exists []. rewrite app_nil_r. auto.
Qed.

Lemma emits_call : forall (P : event -> Prop) {A} ev (r : result A),
  P ev -> emits_only P (call ev r).
Proof.
  unfold emits_only, call; intros P A ev r0 Hev t r t' H. injection H as _ <-.
  exists [ev]. auto.
Qed.

Lemma emits_bind : forall P {A B} (m : M A) (k : A -> M B),
  emits_only P m -> (forall a, emits_only P (k a)) -> emits_only P (bind m k).
Proof.
  unfold emits_only, bind; intros P A B m k Hm Hk t r t' H.
  destruct (m t) as [[a|e] t1] eqn:E.
  - destruct (Hm _ _ _ E) as (s1 & -> & F1).
    destruct (Hk a _ _ _ H) as (s2 & -> & F2).
    exists (s1 ++ s2)%list. rewrite app_assoc. split; [reflexivity|].
    apply Forall_app; auto.
  - injection H as _ <-. eauto.
Qed.

Lemma quiet_ret : forall {A} (a : A), quiet (ret a).
Proof. intros. apply emits_ret. Qed.

Lemma quiet_lift : forall {A} (r : result A), quiet (lift r).
Proof. intros. apply emits_lift. Qed.

Lemma quiet_call : forall {A} ev (r : result A), no_glue ev -> quiet (call ev r).
Proof. intros. apply emits_call. assumption. Qed.

Lemma quiet_bind : forall {A B} (m : M A) (k : A -> M B),
  quiet m -> (forall a, quiet (k a)) -> quiet (bind m k).
Proof. intros. apply emits_bind; assumption. Qed.

Create HintDb quiet.
#[local] Hint Resolve quiet_ret quiet_lift quiet_bind : quiet.
#[local] Hint Extern 1 (quiet (call _ _)) => apply quiet_call; exact I : quiet.

Create HintDb no_queue.
#[local] Hint Resolve emits_ret emits_lift emits_bind : no_queue.
#[local] Hint Extern 1 (emits_only no_queue (call _ _)) => apply emits_call; exact I : no_queue.

Lemma quiet_validate_files : forall env am app_id aid rev contents errs,
  quiet (validate_files env am app_id aid rev contents errs).
Proof.
  induction contents as [|[p d] contents IH]; intros errs; simpl; [auto with quiet|].
  destruct (url _); [|apply IH].
  apply quiet_bind; [auto with quiet|]. intros j.
  apply quiet_bind; [auto with quiet|]. intros j'.
  destruct (String.eqb p "taskData.json"); [apply IH|].
  apply quiet_bind; [auto with quiet|]. intros errs'.
  destruct errs'; apply IH.
Qed.

Lemma quiet_validate_data : forall env mp am sts, quiet (validate_data env mp am sts).
Proof.
  intros. unfold validate_data.
  repeat (apply quiet_bind; [auto with quiet|intros ?]).
  - apply quiet_validate_files.
  - auto with quiet.
Qed.

Lemma quiet_process_records : forall env am records messages sts,
  quiet (process_records env am records messages sts).
Proof.
  induction records as [|m records IH]; intros messages sts; simpl; [auto with quiet|].
  apply quiet_bind; [|intros; apply IH].
  unfold record_step, update_sts_tokens, mark_as_invalid.
  apply quiet_bind; [destruct (dict_get _ sts); auto with quiet|intros ?].
  apply quiet_bind; [apply quiet_validate_data|intros vr].
  apply quiet_bind; [destruct (errors vr); auto with quiet|intros ?].
  auto with quiet.
Qed.

(* ------------------------------------------------------------------ *)
(** * Validation: claims C3 and C8 *)

(** C3 (counterexample).  The header ["osName=iOS"] is not JSON and has no
    [appVersion]: the fallback computes [int(None)] and raises [TypeError].
    The header ["appVersion=3,osName=iOS"] is not JSON either, and the
    record carrying it is validated with [appId] ["mobile-toolbox"], not a
    null sentinel. *)
Lemma C3_counterexample :
  json_loads "osName=iOS" = Err JSONDecodeError /\
  parse_client_info_metadata "osName=iOS" = Err TypeError /\
  json_loads "appVersion=3,osName=iOS" = Err JSONDecodeError /\
  validate_data Sample.env_run (Sample.mp_of "valid.zip") Sample.am_run
                [("syn1", "token-syn1")] []
  = (Ok {| assessmendId := "A1"; vr_assessmentRevision := 1;
           vr_appId := JStr "mobile-toolbox"; recordId := "rec"; errors := [] |},
     [GetObject "bucket" "valid.zip"; GetSchema "http://s/a1.json"]).
Proof. repeat split; vm_compute; reflexivity. Qed.

(** C3 (amended).  When the [clientinfo] header is not valid JSON,
    [parse_client_info_metadata] falls back to the [key=value] form: the
    [appVersion] text is converted by [int()], [osName] is the text after
    the first [osName=] (up to the next comma or [=]) or [None] when absent,
    and [appName] is always the fixed ["mobile-toolbox"].  A record whose
    [clientinfo] is not valid JSON and whose validation completes therefore
    has [appId] ["mobile-toolbox"]. *)
Theorem C3_fallback_fixed_app_name :
  (forall s e,
     json_loads s = Err e ->
     parse_client_info_metadata s
     = let* v := py_int (option_map group_split_1 (re_search_value "appVersion=" s)) in
       Ok (JObj [("appVersion", JInt v);
                 ("osName", match option_map group_split_1 (re_search_value "osName=" s) with
                            | Some o => JStr o
                            | None => JNull
                            end);
                 ("appName", JStr "mobile-toolbox")])) /\
  (forall env mp am sts c o cs e t vr t',
     dict_get (raw_folder_id mp) sts = Some c ->
     get_object env c (source_bucket mp) (source_key mp) = Ok o ->
     meta o "clientinfo" = Ok cs ->
     json_loads cs = Err e ->
     validate_data env mp am sts t = (Ok vr, t') ->
     vr_appId vr = JStr "mobile-toolbox").
Proof.
  split.
  - intros s e H. unfold parse_client_info_metadata. rewrite H. reflexivity.
  - intros env mp am sts c o cs e t vr t' Hc Ho Hcs He H.
    apply validate_data_ok_inv in H
      as (c' & o' & rs & cs' & ci & contents & t1 & Hc' & Ho' & _ & _ & _ & Hcs' & Hci
          & Happ & _).
    rewrite Hc in Hc'. injection Hc' as <-. rewrite Ho in Ho'. injection Ho' as <-.
    rewrite Hcs in Hcs'. injection Hcs' as <-.
    unfold parse_client_info_metadata in Hci. rewrite He in Hci.
    destruct (py_int _) as [v|]; [|discriminate].
    simpl in Hci. injection Hci as <-. simpl in Happ. injection Happ as <-. reflexivity.
Qed.

Lemma C3_fallback_fixed_app_name_witness :
  dict_get "syn1" [("syn1", "token-syn1")] = Some "token-syn1" /\
  get_object Sample.env_run "token-syn1" "bucket" "valid.zip"
    = Ok {| Metadata := Sample.metadata "appVersion=3,osName=iOS"; Body := "valid.zip" |} /\
  json_loads "appVersion=3,osName=iOS" = Err JSONDecodeError /\
  vr_appId {| assessmendId := "A1"; vr_assessmentRevision := 1;
              vr_appId := JStr "mobile-toolbox"; recordId := "rec"; errors := [] |}
  = JStr "mobile-toolbox".
Proof.
  split; [reflexivity|]. split; [reflexivity|]. split; [vm_compute; reflexivity|].
  apply (proj2 C3_fallback_fixed_app_name Sample.env_run (Sample.mp_of "valid.zip")
           Sample.am_run [("syn1", "token-syn1")] "token-syn1"
           {| Metadata := Sample.metadata "appVersion=3,osName=iOS"; Body := "valid.zip" |}
           "appVersion=3,osName=iOS" JSONDecodeError []
           {| assessmendId := "A1"; vr_assessmentRevision := 1;
              vr_appId := JStr "mobile-toolbox"; recordId := "rec"; errors := [] |}
           [GetObject "bucket" "valid.zip"; GetSchema "http://s/a1.json"]);
    vm_compute; reflexivity.
Defined.





(* ------------------------------------------------------------------ *)
(** * Failure propagation: claims C4 and C5 *)

Lemma process_records_prefix_err : forall env am pre r post messages sts t e t',
  process_records env am (pre ++ [r]) messages sts t = (Err e, t') ->
  process_records env am (pre ++ r :: post) messages sts t = (Err e, t').
Proof.
  intros env am pre r post.
  induction pre as [|m pre IH]; simpl; intros messages sts t e t' H.
  - unfold bind in *. destruct (record_step env am r messages sts t) as [[p|e'] t1].
    + discriminate.
    + exact H.
  - unfold bind in *. destruct (record_step env am m messages sts t) as [[p|e'] t1].
    + exact (IH _ _ _ _ _ H).
    + exact H.
Qed.

(** C4 (counterexample).  The schema of [y.json] in the first record cannot
    be fetched: [lambda_handler] raises [RequestException], and the second
    record ([valid.zip]) is never read. *)
Lemma C4_counterexample :
  lambda_handler Sample.env_run Sample.am_run [Sample.rec_unreachable; Sample.rec1] []
  = (Err RequestException,
     [GetStsToken "syn1"; GetObject "bucket" "unreachable.zip";
      GetSchema "http://s/unreachable.json"]).
Proof. vm_compute. reflexivity. Qed.

(** C4.  No exception is caught: when processing the records up to and
    including [r] raises [e] (a schema fetch failure, or any other), the
    whole [lambda_handler] raises the same [e] with the same trace, whatever
    the records after [r]; they are never processed, and no Glue workflow
    is started or given run properties. *)
Theorem C4_record_failure_aborts_batch :
  forall env am pre r post t e t',
    process_records env am (pre ++ [r]) [] [] t = (Err e, t') ->
    lambda_handler env am (pre ++ r :: post) t = (Err e, t') /\
    exists s, t' = (t ++ s)%list /\ Forall no_glue s.
Proof.
  intros env am pre r post t e t' H.
  unfold lambda_handler.
  rewrite (bind_err _ _ _ e t') by exact (process_records_prefix_err _ _ _ _ _ _ _ _ _ _ H).
  split; [reflexivity|].
  exact (quiet_process_records env am (pre ++ [r]) [] [] t _ _ H).
Qed.

Lemma C4_record_failure_aborts_batch_witness :
  process_records Sample.env_run Sample.am_run ([] ++ [Sample.rec_unreachable]) [] [] []
    = (Err RequestException,
       [GetStsToken "syn1"; GetObject "bucket" "unreachable.zip";
        GetSchema "http://s/unreachable.json"]) /\
  lambda_handler Sample.env_run Sample.am_run ([] ++ Sample.rec_unreachable :: [Sample.rec1]) []
    = (Err RequestException,
       [GetStsToken "syn1"; GetObject "bucket" "unreachable.zip";
        GetSchema "http://s/unreachable.json"]).
Proof.
  assert (H : process_records Sample.env_run Sample.am_run ([] ++ [Sample.rec_unreachable]) [] [] []
    = (Err RequestException,
       [GetStsToken "syn1"; GetObject "bucket" "unreachable.zip";
        GetSchema "http://s/unreachable.json"])) by (vm_compute; reflexivity).
  split; [exact H|].
  exact (proj1 (C4_record_failure_aborts_batch Sample.env_run Sample.am_run []
                  Sample.rec_unreachable [Sample.rec1] [] _ _ H)).
Defined.

Lemma no_queue_validate_files : forall env am app_id aid rev contents errs,
  emits_only no_queue (validate_files env am app_id aid rev contents errs).
Proof.
  induction contents as [|[p d] contents IH]; intros errs; simpl; [auto with no_queue|].
  destruct (url _); [|apply IH].
  apply emits_bind; [auto with no_queue|]. intros j.
  apply emits_bind; [auto with no_queue|]. intros j'.
  destruct (String.eqb p "taskData.json"); [apply IH|].
  apply emits_bind; [auto with no_queue|]. intros errs'.
  destruct errs'; apply IH.
Qed.

Lemma no_queue_validate_data : forall env mp am sts,
  emits_only no_queue (validate_data env mp am sts).
Proof.
  intros. unfold validate_data.
  repeat (apply emits_bind; [auto with no_queue|intros ?]).
  - apply no_queue_validate_files.
  - auto with no_queue.
Qed.

Lemma no_queue_process_records : forall env am records messages sts,
  emits_only no_queue (process_records env am records messages sts).
Proof.
  induction records as [|m records IH]; intros messages sts; simpl; [auto with no_queue|].
  apply emits_bind; [|intros; apply IH].
  unfold record_step, update_sts_tokens, mark_as_invalid.
  apply emits_bind; [destruct (dict_get _ sts); auto with no_queue|intros ?].
  apply emits_bind; [apply no_queue_validate_data|intros vr].
  apply emits_bind; [destruct (errors vr); auto with no_queue|intros ?].
  auto with no_queue.
Qed.

Lemma no_queue_dispatch : forall env messages, emits_only no_queue (dispatch env messages).
Proof.
  induction messages as [|[a by_study] messages IH]; simpl; [auto with no_queue|].
  apply emits_bind; [|intros; apply IH].
  induction by_study as [|[study msgs] by_study IHs]; simpl; [auto with no_queue|].
  apply emits_bind; [auto with no_queue|intros ?].
  apply emits_bind; [auto with no_queue|intros ?].
  exact IHs.
Qed.

Lemma no_queue_lambda_handler : forall env am records,
  emits_only no_queue (lambda_handler env am records).
Proof.
  intros. unfold lambda_handler.
  apply emits_bind; [apply no_queue_process_records|intros; apply no_queue_dispatch].
Qed.

(** C5.  [mark_as_invalid] has the body [pass]: it returns without any
    effect, so no run of [lambda_handler] ever sends anything to the
    invalid-records queue, while every record that was validated is added
    to its [(appId, studyId)] batches whatever its errors.  On the sample
    [invalid.zip], whose [x.json] fails its schema, the record is validated
    with a non-empty [errors], nothing is queued, and it is batched and
    dispatched to Glue like a valid one. *)
Theorem C5_invalid_not_routed :
  (forall vr q t, mark_as_invalid vr q t = (Ok tt, t)) /\
  (forall env am records t r t',
     lambda_handler env am records t = (r, t') ->
     exists s, t' = (t ++ s)%list /\ Forall no_queue s) /\
  (forall env am m messages sts t p t',
     record_step env am m messages sts t = (Ok p, t') ->
     fst p = add_record messages (msg_appId m) (studyRecords m) (params_of m)) /\
  validate_data Sample.env_run (Sample.mp_of "invalid.zip") Sample.am_run
                [("syn1", "token-syn1")] []
  = (Ok {| assessmendId := "A1"; vr_assessmentRevision := 1;
           vr_appId := JStr "mobile-toolbox"; recordId := "rec";
           errors := [("x.json",
                       {| url := Some "http://s/a1.json";
                          allowed_app_specific_files := None;
                          error := Some ["Additional properties are not allowed"];
                          archive_map_version := Some "v1" |})] |},
     [GetObject "bucket" "invalid.zip"; GetSchema "http://s/a1.json"]) /\
  lambda_handler Sample.env_run Sample.am_run [Sample.rec_invalid] []
  = (Ok tt,
     [GetStsToken "syn1"; GetObject "bucket" "invalid.zip"; GetSchema "http://s/a1.json";
      StartWorkflowRun "ns-app1-s1-S3ToJsonWorkflow";
      PutWorkflowRunProperties "ns-app1-s1-S3ToJsonWorkflow"
        "run-ns-app1-s1-S3ToJsonWorkflow" [Sample.mp_of "invalid.zip"]]).
Proof.
  split; [intros; reflexivity|].
  split; [intros env am records t r t' H; exact (no_queue_lambda_handler env am records t r t' H)|].
  split; [exact record_step_groups|].
  split; vm_compute; reflexivity.
Qed.

Lemma C5_invalid_not_routed_witness :
  mark_as_invalid
    {| assessmendId := "A1"; vr_assessmentRevision := 1; vr_appId := JStr "mobile-toolbox";
       recordId := "rec"; errors := [("x.json", {| url := None; allowed_app_specific_files := None;
                                                 error := Some ["e"];
                                                 archive_map_version := None |})] |}
    (Some "invalid-queue") [] = (Ok tt, []) /\
  (exists s, [GetStsToken "syn1"; GetObject "bucket" "invalid.zip"; GetSchema "http://s/a1.json";
      StartWorkflowRun "ns-app1-s1-S3ToJsonWorkflow";
      PutWorkflowRunProperties "ns-app1-s1-S3ToJsonWorkflow"
        "run-ns-app1-s1-S3ToJsonWorkflow" [Sample.mp_of "invalid.zip"]]
      = ([] ++ s)%list /\ Forall no_queue s).
Proof.
  destruct C5_invalid_not_routed as (Hm & Hq & _ & _ & Hrun).
  split; [apply Hm|].
  exact (Hq Sample.env_run Sample.am_run [Sample.rec_invalid] [] (Ok tt) _ Hrun).
Defined.


(* ------------------------------------------------------------------ *)
(** * Further properties of the code *)

(** ** The STS token cache *)

Lemma emits_only_weaken : forall (P Q : event -> Prop) {A} (m : M A),
  (forall ev, P ev -> Q ev) -> emits_only P m -> emits_only Q m.
Proof.
  unfold emits_only; intros P Q A m HPQ Hm t r t' H.
  destruct (Hm _ _ _ H) as (s & -> & F). exists s. split; [reflexivity|].
  eapply Forall_impl; eauto.
Qed.

Create HintDb vevents.
#[local] Hint Resolve emits_ret emits_lift emits_bind : vevents.
#[local] Hint Extern 1 (emits_only validation_event (call _ _)) =>
  apply emits_call; exact I : vevents.

Lemma vevents_validate_files : forall env am app_id aid rev contents errs,
  emits_only validation_event (validate_files env am app_id aid rev contents errs).
Proof.
  induction contents as [|[p d] contents IH]; intros errs; simpl; [auto with vevents|].
  destruct (url _); [|apply IH].
  apply emits_bind; [auto with vevents|]. intros j.
  apply emits_bind; [auto with vevents|]. intros j'.
  destruct (String.eqb p "taskData.json"); [apply IH|].
  apply emits_bind; [auto with vevents|]. intros errs'.
  destruct errs'; apply IH.
Qed.

Lemma vevents_validate_data : forall env mp am sts,
  emits_only validation_event (validate_data env mp am sts).
Proof.
  intros. unfold validate_data.
  repeat (apply emits_bind; [auto with vevents|intros ?]).
  - apply vevents_validate_files.
  - auto with vevents.
Qed.

Lemma sts_folders_app : forall s1 s2,
  sts_folders (s1 ++ s2) = (sts_folders s1 ++ sts_folders s2)%list.
Proof.
  induction s1 as [|ev s1 IH]; intros; simpl; [reflexivity|].
  destruct ev; simpl; rewrite ?IH; reflexivity.
Qed.

Lemma sts_folders_validation : forall s,
  Forall validation_event s -> sts_folders s = [].
Proof.
  induction 1 as [|ev s Hev _ IH]; [reflexivity|].
  destruct ev; simpl in *; tauto.
Qed.

(** The tail of [record_step] after the token update. *)
Lemma record_step_tail : forall env am m messages sts' t r t',
  (vr <- validate_data env (params_of m) am sts' ;;
   _ <- (match errors vr with
         | [] => ret tt
         | _ :: _ => mark_as_invalid vr (env_invalid_sqs env)
         end) ;;
   ret (add_record messages (msg_appId m) (studyRecords m) (params_of m), sts')) t
  = (r, t') ->
  exists s, t' = (t ++ s)%list /\ sts_folders s = [] /\
            forall p, r = Ok p -> snd p = sts'.
Proof.
  intros env am m messages sts' t r t' H.
  assert (Hq : emits_only validation_event
    (vr <- validate_data env (params_of m) am sts' ;;
     _ <- (match errors vr with
           | [] => ret tt
           | _ :: _ => mark_as_invalid vr (env_invalid_sqs env)
           end) ;;
     ret (add_record messages (msg_appId m) (studyRecords m) (params_of m), sts'))).
  { apply emits_bind; [apply vevents_validate_data|intros vr].
    unfold mark_as_invalid.
    apply emits_bind; [destruct (errors vr); apply emits_ret|intros; apply emits_ret]. }
  destruct (Hq _ _ _ H) as (s & -> & F).
  exists s. split; [reflexivity|]. split; [exact (sts_folders_validation s F)|].
  intros p ->.
  apply bind_ok_inv in H as (vr & t1 & _ & H).
  apply bind_ok_inv in H as (u & t2 & _ & H).
  unfold ret in H. injection H as <- _. reflexivity.
Qed.

Lemma dict_get_set_some : forall {V} k k' (v : V) d,
  dict_get k d <> None -> dict_get k (dict_set k' v d) <> None.
Proof.
  intros V k k' v d H. rewrite dict_get_set. destruct (String.eqb k k'); congruence.
Qed.

Lemma record_step_sts : forall env am m messages sts t r t',
  record_step env am m messages sts t = (r, t') ->
  exists s, t' = (t ++ s)%list /\
    (sts_folders s = [] \/
     (sts_folders s = [rawFolderId m] /\ dict_get (rawFolderId m) sts = None)) /\
    forall p, r = Ok p ->
      dict_get (rawFolderId m) (snd p) <> None /\
      forall k, dict_get k sts <> None -> dict_get k (snd p) <> None.
Proof.
  intros env am m messages sts t r t' H.
  unfold record_step, update_sts_tokens in H. simpl raw_folder_id in H.
  destruct (dict_get (rawFolderId m) sts) as [c|] eqn:Hf.
  - unfold bind at 1, ret at 1 in H.
    destruct (record_step_tail _ _ _ _ _ _ _ _ H) as (s & -> & Hs & Hp).
    exists s. split; [reflexivity|]. split; [left; exact Hs|].
    intros p Hr. rewrite (Hp p Hr). split; [congruence|auto].
  - unfold bind at 1, bind at 1, call at 1 in H.
    destruct (get_sts_storage_token env (rawFolderId m)) as [tok|e] eqn:Ht.
    + unfold ret at 1 in H.
      destruct (record_step_tail _ _ _ _ _ _ _ _ H) as (s & -> & Hs & Hp).
      exists (GetStsToken (rawFolderId m) :: s). rewrite <- app_assoc.
      split; [reflexivity|]. split; [right; simpl; rewrite Hs; auto|].
      intros p Hr. rewrite (Hp p Hr). split.
      * rewrite dict_get_set, String.eqb_refl. discriminate.
      * intros k Hk. apply dict_get_set_some. exact Hk.
    + injection H as <- <-. exists [GetStsToken (rawFolderId m)].
      split; [reflexivity|]. split; [right; auto|]. discriminate.
Qed.

Lemma process_records_sts : forall env am records messages sts t r t',
  process_records env am records messages sts t = (r, t') ->
  exists s, t' = (t ++ s)%list /\ NoDup (sts_folders s) /\
    forall f, In f (sts_folders s) -> dict_get f sts = None.
Proof.
  induction records as [|m records IH]; simpl; intros messages sts t r t' H.
  - unfold ret in H. injection H as _ <-. exists []. rewrite app_nil_r.
    split; [reflexivity|]. split; [constructor|intros f []].
  - unfold bind in H.
    destruct (record_step env am m messages sts t) as [r1 t1] eqn:Hs.
    destruct (record_step_sts _ _ _ _ _ _ _ _ Hs) as (s1 & -> & H1 & Hp).
    destruct r1 as [p|e].
    + destruct (IH _ _ _ _ _ H) as (s2 & -> & Hnd & Hnew).
      destruct (Hp p eq_refl) as [Hin Hkeep].
      exists (s1 ++ s2)%list. rewrite app_assoc. split; [reflexivity|].
      rewrite sts_folders_app.
      assert (Hold : forall f, In f (sts_folders s2) -> dict_get f sts = None).
      { intros f Hf. destruct (dict_get f sts) eqn:E; [|reflexivity].
        exfalso. apply (Hkeep f); [congruence|]. apply Hnew. exact Hf. }
      destruct H1 as [-> | [-> Hnone]]; simpl.
      * split; [exact Hnd|exact Hold].
      * split.
        -- constructor; [|exact Hnd]. intros Hf. exact (Hin (Hnew _ Hf)).
        -- intros f [<-|Hf]; [exact Hnone|exact (Hold f Hf)].
    + injection H as _ <-. exists s1. split; [reflexivity|].
      destruct H1 as [-> | [-> Hnone]].
      * split; [constructor|intros f []].
      * split; [repeat constructor; intros []|intros f [<-|[]]; exact Hnone].
Qed.

Create HintDb glue.
#[local] Hint Resolve emits_ret emits_bind : glue.
#[local] Hint Extern 1 (emits_only glue_event (call _ _)) => apply emits_call; exact I : glue.

Lemma glue_dispatch : forall env messages, emits_only glue_event (dispatch env messages).
Proof.
  induction messages as [|[a by_study] messages IH]; simpl; [auto with glue|].
  apply emits_bind; [|intros; apply IH].
  induction by_study as [|[study msgs] by_study IHs]; simpl; [auto with glue|].
  apply emits_bind; [auto with glue|intros ?].
  apply emits_bind; [auto with glue|intros ?].
  exact IHs.
Qed.

Lemma sts_folders_glue : forall s, Forall glue_event s -> sts_folders s = [].
Proof.
  induction 1 as [|ev s Hev _ IH]; [reflexivity|].
  destruct ev; simpl in *; tauto.
Qed.

(** Over one invocation of [lambda_handler] (whether it completes or not)
    the STS token of a Synapse folder is requested at most once, however
    many records share that folder. *)
Theorem lambda_handler_sts_once : forall env am records t r t',
  lambda_handler env am records t = (r, t') ->
  exists s, t' = (t ++ s)%list /\ NoDup (sts_folders s).
Proof.
  unfold lambda_handler, bind. intros env am records t r t' H.
  destruct (process_records env am records [] [] t) as [[g|e] t1] eqn:Hp.
  - destruct (process_records_sts _ _ _ _ _ _ _ _ Hp) as (s1 & -> & Hnd & _).
    destruct (glue_dispatch env g _ _ _ H) as (s2 & -> & F).
    exists (s1 ++ s2)%list. rewrite app_assoc. split; [reflexivity|].
    rewrite sts_folders_app, (sts_folders_glue s2 F), app_nil_r. exact Hnd.
  - injection H as _ <-.
    destruct (process_records_sts _ _ _ _ _ _ _ _ Hp) as (s1 & -> & Hnd & _).
    eauto.
Qed.

Lemma lambda_handler_sts_once_witness :
  lambda_handler Sample.env_run Sample.am_run [Sample.rec1; Sample.rec2] []
    = (Ok tt, Sample.run_12) /\
  exists s, Sample.run_12 = ([] ++ s)%list /\ NoDup (sts_folders s).
Proof.
  assert (H : lambda_handler Sample.env_run Sample.am_run [Sample.rec1; Sample.rec2] []
                = (Ok tt, Sample.run_12)) by (vm_compute; reflexivity).
  split; [exact H|].
  exact (lambda_handler_sts_once _ _ _ _ _ _ H).
Defined.

(** ** What a successful [validate_data] did *)

Lemma validate_files_trace : forall env am app_id aid rev contents errs t errs' t',
  validate_files env am app_id aid rev contents errs t = (Ok errs', t') ->
  t' = (t ++ schema_fetches env am app_id aid rev contents)%list.
Proof.
  intros env am app_id aid rev contents.
  induction contents as [|[p d] contents IH]; simpl; intros errs t errs' t' H.
  - unfold ret in H. injection H as _ <-. rewrite app_nil_r. reflexivity.
  - destruct (url _) as [u|]; [|exact (IH _ _ _ _ H)].
    apply bind_ok_inv in H as (sch & t1 & Hc & H).
    apply call_ok_inv in Hc as [_ ->].
    apply bind_ok_inv in H as (j & t2 & Hl & H).
    apply lift_ok_inv in Hl as [_ ->].
    change (GetSchema u :: schema_fetches env am app_id aid rev contents)
      with ([GetSchema u] ++ schema_fetches env am app_id aid rev contents)%list.
    rewrite app_assoc.
    destruct (String.eqb p "taskData.json"); [exact (IH _ _ _ _ H)|].
    apply bind_ok_inv in H as (e & t3 & Hv & H).
    apply lift_ok_inv in Hv as [_ ->].
    destruct e; exact (IH _ _ _ _ H).
Qed.

(** A successful [validate_data] made exactly these calls: one S3
    [get_object] of the record's bucket and key, then one schema download
    per archive member whose basename resolves, in [namelist] order,
    [taskData.json] included and with no caching of a URL fetched before. *)
Theorem validate_data_trace : forall env mp am sts t vr t',
  validate_data env mp am sts t = (Ok vr, t') ->
  exists c o contents,
    dict_get (raw_folder_id mp) sts = Some c /\
    get_object env c (source_bucket mp) (source_key mp) = Ok o /\
    zip_members env (Body o) = Ok contents /\
    t' = (t ++ GetObject (source_bucket mp) (source_key mp)
              :: schema_fetches env am (vr_appId vr) (assessmendId vr)
                                (vr_assessmentRevision vr) contents)%list.
Proof.
  unfold validate_data. intros env mp am sts t vr t' H.
  apply bind_ok_inv in H as (c & t1 & Hl & H). apply lift_ok_inv in Hl as [Hc ->].
  apply bind_ok_inv in H as (o & t2 & Hg & H). apply call_ok_inv in Hg as [Ho ->].
  apply bind_ok_inv in H as (aid & t3 & Hl & H). apply lift_ok_inv in Hl as [_ ->].
  apply bind_ok_inv in H as (rs & t4 & Hl & H). apply lift_ok_inv in Hl as [_ ->].
  apply bind_ok_inv in H as (rev & t5 & Hl & H). apply lift_ok_inv in Hl as [_ ->].
  apply bind_ok_inv in H as (cs & t6 & Hl & H). apply lift_ok_inv in Hl as [_ ->].
  apply bind_ok_inv in H as (ci & t7 & Hl & H). apply lift_ok_inv in Hl as [_ ->].
  apply bind_ok_inv in H as (app_id & t8 & Hl & H). apply lift_ok_inv in Hl as [_ ->].
  apply bind_ok_inv in H as (rid & t9 & Hl & H). apply lift_ok_inv in Hl as [_ ->].
  apply bind_ok_inv in H as (contents & t10 & Hl & H). apply lift_ok_inv in Hl as [Hz ->].
  apply bind_ok_inv in H as (errs & t11 & Hf & H).
  unfold ret in H. injection H as <- <-. simpl.
  exists c, o, contents.
  split; [destruct (dict_get _ sts); congruence|].
  split; [exact Ho|]. split; [exact Hz|].
  rewrite (validate_files_trace _ _ _ _ _ _ _ _ _ _ Hf), <- app_assoc. reflexivity.
Qed.

Lemma validate_data_trace_witness :
  validate_data Sample.env_run (Sample.mp_of "taskdata.zip") Sample.am_run
                [("syn1", "token-syn1")] []
  = (Ok {| assessmendId := "A1"; vr_assessmentRevision := 1;
           vr_appId := JStr "mobile-toolbox"; recordId := "rec"; errors := [] |},
     [GetObject "bucket" "taskdata.zip"; GetSchema "http://s/taskdata.json"]) /\
  exists c o contents,
    dict_get "syn1" [("syn1", "token-syn1")] = Some c /\
    get_object Sample.env_run c "bucket" "taskdata.zip" = Ok o /\
    zip_members Sample.env_run (Body o) = Ok contents /\
    [GetObject "bucket" "taskdata.zip"; GetSchema "http://s/taskdata.json"]
    = ([] ++ GetObject "bucket" "taskdata.zip"
          :: schema_fetches Sample.env_run Sample.am_run (JStr "mobile-toolbox") "A1" 1
                            contents)%list.
Proof.
  assert (H : validate_data Sample.env_run (Sample.mp_of "taskdata.zip") Sample.am_run
                [("syn1", "token-syn1")] []
    = (Ok {| assessmendId := "A1"; vr_assessmentRevision := 1;
             vr_appId := JStr "mobile-toolbox"; recordId := "rec"; errors := [] |},
       [GetObject "bucket" "taskdata.zip"; GetSchema "http://s/taskdata.json"]))
    by (vm_compute; reflexivity).
  split; [exact H|].
  exact (validate_data_trace _ _ _ _ _ _ _ H).
Defined.

(** ** The [errors] dict of [validate_data] *)

Lemma dict_set_in : forall {V} k k' (v v' : V) d,
  In (k', v') (dict_set k v d) -> (k' = k /\ v' = v) \/ In (k', v') d.
Proof.
  induction d as [|[k0 v0] d IH]; simpl; intros H.
  - destruct H as [H|[]]. injection H as -> ->. auto.
  - destruct (String.eqb k k0).
    + destruct H as [H|H]; [injection H as -> ->; auto|auto].
    + destruct H as [H|H]; [auto|]. destruct (IH H) as [?|?]; auto.
Qed.

Lemma dict_set_keys : forall {V} k k' (v : V) d,
  In k' (map fst (dict_set k v d)) <-> k' = k \/ In k' (map fst d).
Proof.
  induction d as [|[k0 v0] d IH]; simpl.
  - intuition (subst; auto).
  - destruct (String.eqb_spec k k0) as [->|Hne]; simpl; [intuition (subst; auto)|].
    rewrite IH. intuition (subst; auto).
Qed.

Lemma dict_set_nodup : forall {V} k (v : V) d,
  NoDup (map fst d) -> NoDup (map fst (dict_set k v d)).
Proof.
  induction d as [|[k0 v0] d IH]; simpl; intros Hnd.
  - repeat constructor. intros [].
  - inversion Hnd as [|? ? Hn Hnd']; subst.
    destruct (String.eqb_spec k k0) as [->|Hne]; simpl.
    + constructor; assumption.
    + constructor; [|exact (IH Hnd')].
      rewrite dict_set_keys. intros [->|Hin]; [exact (Hne eq_refl)|exact (Hn Hin)].
Qed.

Lemma validate_files_errors : forall env am app_id aid rev contents errs t errs' t',
  validate_files env am app_id aid rev contents errs t = (Ok errs', t') ->
  (NoDup (map fst errs) -> NoDup (map fst errs')) /\
  (forall k o, In (k, o) errs' ->
     In (k, o) errs \/
     exists p d e, In (p, d) contents /\ failing_member env am app_id aid rev p d e /\
       k = basename p /\
       o = set_error e (get_json_schema am k app_id aid rev (env_archive_map_version env))) /\
  (forall k, In k (map fst errs) -> In k (map fst errs')) /\
  (forall p d e, In (p, d) contents -> failing_member env am app_id aid rev p d e ->
     In (basename p) (map fst errs')).
Proof.
  intros env am app_id aid rev contents.
  induction contents as [|[p d] contents IH]; simpl; intros errs t errs' t' H.
  - unfold ret in H. injection H as <- _.
    split; [auto|]. split; [auto|]. split; [auto|]. intros ? ? ? [].
  - destruct (url _) as [u|] eqn:U.
    2:{ destruct (IH _ _ _ _ H) as (H1 & H2 & H3 & H4).
        split; [exact H1|]. split.
        - intros k o Hin. destruct (H2 k o Hin) as [?|(p' & d' & e & ? & ? & ? & ?)]; [auto|].
          right. exists p', d', e. auto.
        - split; [exact H3|]. intros p' d' e [Hpd|Hin] Hf; [|exact (H4 _ _ _ Hin Hf)].
          injection Hpd as -> ->. destruct Hf as (_ & _ & u' & _ & _ & Hu & _).
          rewrite U in Hu. discriminate. }
    apply bind_ok_inv in H as (sch & t1 & Hc & H).
    apply call_ok_inv in Hc as [Hsch ->].
    apply bind_ok_inv in H as (j & t2 & Hl & H).
    apply lift_ok_inv in Hl as [Hj ->].
    destruct (String.eqb_spec p "taskData.json") as [Ht|Ht].
    + destruct (IH _ _ _ _ H) as (H1 & H2 & H3 & H4).
      split; [exact H1|]. split.
      * intros k o Hin. destruct (H2 k o Hin) as [?|(p' & d' & e & ? & ? & ? & ?)]; [auto|].
        right. exists p', d', e. auto.
      * split; [exact H3|]. intros p' d' e [Hpd|Hin] Hf; [|exact (H4 _ _ _ Hin Hf)].
        injection Hpd as -> ->. destruct Hf as [Hf _]. contradiction.
    + apply bind_ok_inv in H as (e & t3 & Hv & H).
      apply lift_ok_inv in Hv as [He ->].
      assert (Hown : forall e', failing_member env am app_id aid rev p d e' -> e' = e).
      { intros e' (_ & _ & u' & sch' & j' & Hu & Hs & Hj' & Hi).
        rewrite U in Hu. injection Hu as <-. rewrite Hsch in Hs. injection Hs as <-.
        rewrite Hj in Hj'. injection Hj' as <-. unfold validate_against_schema in He.
        rewrite He in Hi. injection Hi as <-. reflexivity. }
      destruct e as [|e0 e'] eqn:Ee.
      * destruct (IH _ _ _ _ H) as (H1 & H2 & H3 & H4).
        split; [exact H1|]. split.
        -- intros k o Hin. destruct (H2 k o Hin) as [?|(p' & d' & e2 & ? & ? & ? & ?)]; [auto|].
           right. exists p', d', e2. auto.
        -- split; [exact H3|]. intros p' d' e2 [Hpd|Hin] Hf; [|exact (H4 _ _ _ Hin Hf)].
           injection Hpd as -> ->. pose proof (Hown _ Hf) as ->.
           destruct Hf as (_ & Hne & _). contradiction.
      * destruct (IH _ _ _ _ H) as (H1 & H2 & H3 & H4).
        split; [intros Hnd; apply H1, dict_set_nodup, Hnd|]. split.
        -- intros k o Hin. destruct (H2 k o Hin) as [Hold|(p' & d' & e2 & ? & ? & ? & ?)].
           ++ apply dict_set_in in Hold as [[-> ->]|Hold]; [|auto].
              right. exists p, d, (e0 :: e'). split; [auto|]. split; [|auto].
              split; [exact Ht|]. split; [discriminate|].
              exists u, sch, j. unfold validate_against_schema in He. auto.
           ++ right. exists p', d', e2. auto.
        -- split.
           ++ intros k Hk. apply H3, dict_set_keys. auto.
           ++ intros p' d' e2 [Hpd|Hin] Hf; [|exact (H4 _ _ _ Hin Hf)].
              injection Hpd as -> ->. apply H3, dict_set_keys. auto.
Qed.

(** The [errors] dict a successful [validate_data] returns has one entry
    per key, and its entries are exactly the failing members: every entry
    is keyed by the basename of a member other than [taskData.json] whose
    schema resolved and was fetched, whose data decoded, and on which the
    validator reported a non-empty list [e], and it holds the resolver's
    result for that name with [error] set to [e]; conversely every such
    member has an entry under its basename.  In particular a record none of
    whose members fails gets an empty [errors]. *)
Theorem validate_data_errors : forall env mp am sts t vr t',
  validate_data env mp am sts t = (Ok vr, t') ->
  exists c o contents,
    dict_get (raw_folder_id mp) sts = Some c /\
    get_object env c (source_bucket mp) (source_key mp) = Ok o /\
    zip_members env (Body o) = Ok contents /\
    NoDup (map fst (errors vr)) /\
    (forall k o, In (k, o) (errors vr) ->
       exists p d e, In (p, d) contents /\
         failing_member env am (vr_appId vr) (assessmendId vr) (vr_assessmentRevision vr) p d e /\
         k = basename p /\
         o = set_error e (get_json_schema am k (vr_appId vr) (assessmendId vr)
                                          (vr_assessmentRevision vr)
                                          (env_archive_map_version env))) /\
    (forall p d e, In (p, d) contents ->
       failing_member env am (vr_appId vr) (assessmendId vr) (vr_assessmentRevision vr) p d e ->
       In (basename p) (map fst (errors vr))).
Proof.
  intros env mp am sts t vr t' H.
  apply validate_data_ok_inv in H
    as (c & ob & rs & cs & ci & contents & t1 & Hc & Ho & _ & _ & _ & _ & _ & _ & _ & Hz & Hv).
  destruct (validate_files_errors _ _ _ _ _ _ _ _ _ _ Hv) as (H1 & H2 & _ & H4).
  exists c, ob, contents. split; [exact Hc|]. split; [exact Ho|]. split; [exact Hz|].
  split; [apply H1; constructor|]. split; [|exact H4].
  intros k o Hin. destruct (H2 k o Hin) as [[]|Hm]. exact Hm.
Qed.

Lemma validate_data_errors_witness :
  validate_data Sample.env_run (Sample.mp_of "invalid.zip") Sample.am_run
                [("syn1", "token-syn1")] []
  = (Ok {| assessmendId := "A1"; vr_assessmentRevision := 1;
           vr_appId := JStr "mobile-toolbox"; recordId := "rec";
           errors := [("x.json",
                       {| url := Some "http://s/a1.json";
                          allowed_app_specific_files := None;
                          error := Some ["Additional properties are not allowed"];
                          archive_map_version := Some "v1" |})] |},
     [GetObject "bucket" "invalid.zip"; GetSchema "http://s/a1.json"]) /\
  exists c o contents,
    dict_get "syn1" [("syn1", "token-syn1")] = Some c /\
    get_object Sample.env_run c "bucket" "invalid.zip" = Ok o /\
    zip_members Sample.env_run (Body o) = Ok contents /\
    NoDup ["x.json"] /\
    (forall k o, In (k, o) [("x.json",
                       {| url := Some "http://s/a1.json";
                          allowed_app_specific_files := None;
                          error := Some ["Additional properties are not allowed"];
                          archive_map_version := Some "v1" |})] ->
       exists p d e, In (p, d) contents /\
         failing_member Sample.env_run Sample.am_run (JStr "mobile-toolbox") "A1" 1 p d e /\
         k = basename p /\
         o = set_error e (get_json_schema Sample.am_run k (JStr "mobile-toolbox") "A1" 1
                                          (Some "v1"))) /\
    (forall p d e, In (p, d) contents ->
       failing_member Sample.env_run Sample.am_run (JStr "mobile-toolbox") "A1" 1 p d e ->
       In (basename p) ["x.json"]).
Proof.
  assert (H : validate_data Sample.env_run (Sample.mp_of "invalid.zip") Sample.am_run
                [("syn1", "token-syn1")] []
    = (Ok {| assessmendId := "A1"; vr_assessmentRevision := 1;
             vr_appId := JStr "mobile-toolbox"; recordId := "rec";
             errors := [("x.json",
                         {| url := Some "http://s/a1.json";
                            allowed_app_specific_files := None;
                            error := Some ["Additional properties are not allowed"];
                            archive_map_version := Some "v1" |})] |},
       [GetObject "bucket" "invalid.zip"; GetSchema "http://s/a1.json"]))
    by (vm_compute; reflexivity).
  split; [exact H|].
  exact (validate_data_errors _ _ _ _ _ _ _ H).
Defined.

(** ** The [clientinfo] header *)

(** The fallback of [parse_client_info_metadata] is taken only when the
    header is not JSON.  A header that is JSON is used as decoded: when it
    is not an object (a string, a number, a list, ...) [client_info["appName"]]
    raises [TypeError], and when it is an object without ["appName"] it
    raises [KeyError]; both happen in [validate_data] after the S3 read,
    once the header fields before it have been read. *)
Theorem validate_data_json_clientinfo : forall env mp am sts t c o aid rs rev cs ci,
  dict_get (raw_folder_id mp) sts = Some c ->
  get_object env c (source_bucket mp) (source_key mp) = Ok o ->
  meta o "assessmentid" = Ok aid ->
  meta o "assessmentrevision" = Ok rs ->
  py_int (Some rs) = Ok rev ->
  meta o "clientinfo" = Ok cs ->
  json_loads cs = Ok ci ->
  ((forall l, ci <> JObj l) ->
   validate_data env mp am sts t
   = (Err TypeError, (t ++ [GetObject (source_bucket mp) (source_key mp)])%list)) /\
  (forall l, ci = JObj l -> dict_get "appName" l = None ->
   validate_data env mp am sts t
   = (Err (KeyError "appName"), (t ++ [GetObject (source_bucket mp) (source_key mp)])%list)).
Proof.
  intros env mp am sts t c o aid rs rev cs ci Hc Ho Ha Hr Hrev Hcs Hci.
  assert (Hp : parse_client_info_metadata cs = Ok ci)
    by (unfold parse_client_info_metadata; rewrite Hci; reflexivity).
  assert (E : forall e, json_getitem ci "appName" = Err e ->
    validate_data env mp am sts t
    = (Err e, (t ++ [GetObject (source_bucket mp) (source_key mp)])%list)).
  { intros e He. unfold validate_data.
    rewrite (bind_ok _ _ _ c t) by (unfold lift; rewrite Hc; reflexivity).
    rewrite (bind_ok _ _ _ o (t ++ [GetObject (source_bucket mp) (source_key mp)])%list)
      by (unfold call; rewrite Ho; reflexivity).
    rewrite (bind_ok _ _ _ aid (t ++ [GetObject (source_bucket mp) (source_key mp)])%list)
      by (unfold lift; rewrite Ha; reflexivity).
    rewrite (bind_ok _ _ _ rs (t ++ [GetObject (source_bucket mp) (source_key mp)])%list)
      by (unfold lift; rewrite Hr; reflexivity).
    rewrite (bind_ok _ _ _ rev (t ++ [GetObject (source_bucket mp) (source_key mp)])%list)
      by (unfold lift; rewrite Hrev; reflexivity).
    rewrite (bind_ok _ _ _ cs (t ++ [GetObject (source_bucket mp) (source_key mp)])%list)
      by (unfold lift; rewrite Hcs; reflexivity).
    rewrite (bind_ok _ _ _ ci (t ++ [GetObject (source_bucket mp) (source_key mp)])%list)
      by (unfold lift; rewrite Hp; reflexivity).
    apply bind_err. unfold lift. rewrite He. reflexivity. }
  split.
  - intros Hn. apply E. destruct ci; try reflexivity. exfalso. exact (Hn l eq_refl).
  - intros l -> Hl. apply E. simpl. rewrite Hl. reflexivity.
Qed.

Lemma validate_data_json_clientinfo_witness :
  validate_data (Sample.env_ci "5") (Sample.mp_of "valid.zip") Sample.am_run
                [("syn1", "token-syn1")] []
    = (Err TypeError, [GetObject "bucket" "valid.zip"]) /\
  validate_data (Sample.env_ci "{}") (Sample.mp_of "valid.zip") Sample.am_run
                [("syn1", "token-syn1")] []
    = (Err (KeyError "appName"), [GetObject "bucket" "valid.zip"]).
Proof.
  split.
  - apply (proj1 (validate_data_json_clientinfo (Sample.env_ci "5") (Sample.mp_of "valid.zip")
             Sample.am_run [("syn1", "token-syn1")] [] "token-syn1"
             {| Metadata := Sample.metadata "5"; Body := "valid.zip" |} "A1" "1" 1 "5" (JInt 5)
             eq_refl eq_refl eq_refl eq_refl
             ltac:(vm_compute; reflexivity) eq_refl ltac:(vm_compute; reflexivity))).
    intros l; discriminate.
  - apply (proj2 (validate_data_json_clientinfo (Sample.env_ci "{}") (Sample.mp_of "valid.zip")
             Sample.am_run [("syn1", "token-syn1")] [] "token-syn1"
             {| Metadata := Sample.metadata "{}"; Body := "valid.zip" |} "A1" "1" 1 "{}" (JObj [])
             eq_refl eq_refl eq_refl eq_refl
             ltac:(vm_compute; reflexivity) eq_refl ltac:(vm_compute; reflexivity)) []).
    + reflexivity.
    + reflexivity.
Defined.

(** ** Resolution for an app id that is not a string *)

Lemma app_loop_no_match : forall l f app_id aid rev o,
  (forall a, In a l -> py_eq_str (appId a) app_id = false) ->
  app_loop l f app_id aid rev o = o.
Proof.
  unfold app_loop. induction l as [|a l IH]; simpl; intros f app_id aid rev o H; [reflexivity|].
  unfold app_step at 2. rewrite (H a (or_introl eq_refl)).
  apply IH. intros a' Ha'. apply H. right. exact Ha'.
Qed.

(** When the [appName] of a JSON [clientinfo] header is not a string (a
    number, null, a list, ...), Python's [==] with every [appId] is false:
    the apps of the archive map are never consulted, and the resolution is
    the one of the same archive map without apps (assessment tier, then the
    top-level [anyOf], with [allowed_app_specific_files] left unset). *)
Theorem get_json_schema_nonstring_app_id : forall am f app_id aid rev v,
  (forall s, app_id <> JStr s) ->
  get_json_schema am f app_id aid rev v
  = get_json_schema {| assessments := assessments am; apps := []; anyOf := anyOf am |}
                    f app_id aid rev v /\
  allowed_app_specific_files (get_json_schema am f app_id aid rev v) = None.
Proof.
  intros am f app_id aid rev v Hs.
  assert (Hl : forall l o, app_loop l f app_id aid rev o = o).
  { intros l o. apply app_loop_no_match. intros a _.
    destruct app_id; try reflexivity. exfalso. exact (Hs s eq_refl). }
  unfold get_json_schema. simpl. rewrite Hl. split; [reflexivity|].
  destruct (assessment_loop _ _ _ _); [reflexivity|].
  simpl. destruct (first_any _ _); reflexivity.
Qed.

Lemma get_json_schema_nonstring_app_id_witness :
  get_json_schema Sample.am_both "x.json" (JInt 5) "A1" 1 None
  = get_json_schema {| assessments := []; apps := []; anyOf := [] |}
                    "x.json" (JInt 5) "A1" 1 None /\
  allowed_app_specific_files (get_json_schema Sample.am_both "x.json" (JInt 5) "A1" 1 None)
  = None.
Proof.
  exact (get_json_schema_nonstring_app_id Sample.am_both "x.json" (JInt 5) "A1" 1 None
           ltac:(intros s; discriminate)).
Defined.

(** ** [re.search] in the [clientinfo] fallback *)










(** ** [int()] on header values *)

Lemma str_app_nil_r : forall a : string, (a ++ "")%string = a.
Proof. induction a as [|c a IH]; simpl; [reflexivity|rewrite IH; reflexivity]. Qed.

Lemma str_app_assoc : forall a b c : string, ((a ++ b) ++ c)%string = (a ++ (b ++ c))%string.
Proof. induction a as [|x a IH]; intros; simpl; [reflexivity|rewrite IH; reflexivity]. Qed.

Lemma rev_string_app : forall a b,
  rev_string (a ++ b)%string = (rev_string b ++ rev_string a)%string.
Proof.
  induction a as [|c a IH]; intros b; simpl.
  - rewrite str_app_nil_r. reflexivity.
  - rewrite IH. apply str_app_assoc.
Qed.

Lemma rev_string_involutive : forall s, rev_string (rev_string s) = s.
Proof.
  induction s as [|c s IH]; simpl; [reflexivity|].
  rewrite rev_string_app. simpl. rewrite IH. reflexivity.
Qed.

Lemma forallb_rev_string : forall f s,
  forallb f (list_ascii_of_string (rev_string s)) = forallb f (list_ascii_of_string s).
Proof.
  intros f s. induction s as [|c s IH]; simpl; [reflexivity|].
  assert (Happ : forall a b, list_ascii_of_string (a ++ b)%string
                             = (list_ascii_of_string a ++ list_ascii_of_string b)%list).
  { induction a as [|x a IHa]; intros b; simpl; [reflexivity|rewrite IHa; reflexivity]. }
  rewrite Happ, forallb_app, IH. simpl. rewrite andb_true_r, andb_comm. reflexivity.
Qed.

Lemma drop_while_all : forall f a b,
  forallb f (list_ascii_of_string a) = true -> drop_while f (a ++ b)%string = drop_while f b.
Proof.
  induction a as [|c a IH]; simpl; intros b H; [reflexivity|].
  apply andb_prop in H as [-> H]. exact (IH b H).
Qed.

Lemma digit_not_space : forall c, is_digit c = true -> py_isspace c = false.
Proof.
  intros c H. unfold is_digit, py_isspace in *.
  apply andb_prop in H as [H1 H2]. apply Nat.leb_le in H1, H2.
  destruct (Nat.eqb_spec (code c) 32) as [E|_]; [lia|].
  destruct (Nat.leb_spec 9 (code c)); destruct (Nat.leb_spec (code c) 13); simpl; lia.
Qed.

(** Stripping the spaces around [d], a non-empty string that starts and
    ends with a non-space, leaves [d]. *)
Lemma strip_spaces : forall ws1 x ws2,
  forallb py_isspace (list_ascii_of_string ws1) = true ->
  forallb py_isspace (list_ascii_of_string ws2) = true ->
  (exists c r, x = String c r /\ py_isspace c = false) ->
  (exists c r, rev_string x = String c r /\ py_isspace c = false) ->
  rev_string (drop_while py_isspace (rev_string (drop_while py_isspace (ws1 ++ x ++ ws2)%string)))
  = x.
Proof.
  intros ws1 x ws2 H1 H2 (c & r & Hx & Hc) (c' & r' & Hx' & Hc').
  rewrite drop_while_all by exact H1.
  assert (E : drop_while py_isspace (x ++ ws2)%string = (x ++ ws2)%string)
    by (rewrite Hx; simpl; rewrite Hc; reflexivity).
  rewrite E, rev_string_app, drop_while_all by (rewrite forallb_rev_string; exact H2).
  rewrite Hx'. simpl. rewrite Hc'. rewrite <- Hx'. apply rev_string_involutive.
Qed.

Lemma py_digits_all : forall r acc,
  forallb is_digit (list_ascii_of_string r) = true -> py_digits acc r = Some (digits_to_Z acc r).
Proof.
  induction r as [|c r IH]; simpl; intros acc H; [reflexivity|].
  apply andb_prop in H as [-> H]. exact (IH _ H).
Qed.

(** [int(s)] on a header value made of optional surrounding whitespace, an
    optional sign and decimal digits (leading zeros allowed) is the value of
    the digits, negated after a minus sign. *)
Theorem py_int_decimal : forall ws1 sign d ws2,
  forallb py_isspace (list_ascii_of_string ws1) = true ->
  forallb py_isspace (list_ascii_of_string ws2) = true ->
  (sign = "" \/ sign = "+" \/ sign = "-") ->
  d <> "" -> forallb is_digit (list_ascii_of_string d) = true ->
  py_int (Some (ws1 ++ sign ++ d ++ ws2)%string)
  = Ok ((if String.eqb sign "-" then -1 else 1) * digits_to_Z 0 d)%Z.
Proof.
  intros ws1 sign d ws2 H1 H2 Hsign Hne Hd.
  destruct d as [|c0 d0]; [contradiction|].
  simpl in Hd. apply andb_prop in Hd as [Hc0 Hd0].
  assert (Hrev : exists c r, rev_string (sign ++ String c0 d0)%string = String c r
                             /\ py_isspace c = false).
  { assert (Hall : forallb is_digit (list_ascii_of_string (rev_string (String c0 d0))) = true)
      by (rewrite forallb_rev_string; simpl; rewrite Hc0, Hd0; reflexivity).
    rewrite rev_string_app.
    destruct (rev_string (String c0 d0)) as [|c r] eqn:E.
    - simpl in E. destruct (rev_string d0); discriminate.
    - exists c, (r ++ rev_string sign)%string. split; [reflexivity|].
      simpl in Hall. apply andb_prop in Hall as [Hc _]. exact (digit_not_space c Hc). }
  assert (Hfirst : exists c r, (sign ++ String c0 d0)%string = String c r
                               /\ py_isspace c = false).
  { destruct Hsign as [-> | [-> | ->]]; do 2 eexists; split; try reflexivity.
    exact (digit_not_space c0 Hc0). }
  pose proof (strip_spaces ws1 (sign ++ String c0 d0) ws2 H1 H2 Hfirst Hrev) as Ht.
  rewrite str_app_assoc in Ht. unfold py_int, py_int_str. rewrite Ht.
  destruct Hsign as [-> | [-> | ->]]; simpl.
  - assert (Hm : Ascii.eqb c0 "-" = false /\ Ascii.eqb c0 "+" = false).
    { split; destruct (Ascii.eqb_spec c0 "-"), (Ascii.eqb_spec c0 "+"); subst;
        try reflexivity; try discriminate; exfalso; congruence. }
    destruct Hm as [-> ->]. rewrite Hc0, py_digits_all by exact Hd0.
    destruct (digits_to_Z _ d0); reflexivity.
  - rewrite Hc0, py_digits_all by exact Hd0.
    destruct (digits_to_Z _ d0); reflexivity.
  - rewrite Hc0, py_digits_all by exact Hd0. reflexivity.
Qed.

Lemma py_int_decimal_witness :
  py_int (Some (" " ++ "-" ++ "007" ++ String (ascii_of_nat 10) "")%string) = Ok (-7)%Z.
Proof.
  exact (py_int_decimal " " "-" "007" (String (ascii_of_nat 10) "")
           eq_refl eq_refl ltac:(right; right; reflexivity) ltac:(discriminate) eq_refl).
Defined.

(** ** [os.path.basename] and [os.path.dirname] *)

Lemma take_while_app_all : forall f a b,
  forallb f (list_ascii_of_string a) = true ->
  take_while f (a ++ b)%string = (a ++ take_while f b)%string.
Proof.
  induction a as [|c a IH]; simpl; intros b H; [reflexivity|].
  apply andb_prop in H as [-> H]. rewrite (IH b H). reflexivity.
Qed.

(** For a path [d/b] whose last component [b] has no slash, [basename]
    is [b]; when [d] is non-empty and does not end in a slash, [dirname] is
    [d].  So a member ["dir/x.json"] of an archive is resolved and keyed as
    ["x.json"], and the schema [http://host/dir/s.json] resolves its
    references against [http://host/dir]. *)
Theorem basename_dirname_split : forall d0 c b,
  c <> "/"%char ->
  forallb not_slash (list_ascii_of_string b) = true ->
  basename ((d0 ++ String c "") ++ "/" ++ b)%string = b /\
  dirname ((d0 ++ String c "") ++ "/" ++ b)%string = (d0 ++ String c "")%string.
Proof.
  intros d0 c b Hc Hb.
  assert (Hr : rev_string ((d0 ++ String c "") ++ "/" ++ b)%string
               = (rev_string b ++ String "/" (String c (rev_string d0)))%string).
  { rewrite rev_string_app. simpl. rewrite rev_string_app. simpl.
    rewrite str_app_assoc. reflexivity. }
  assert (Hb' : forallb not_slash (list_ascii_of_string (rev_string b)) = true)
    by (rewrite forallb_rev_string; exact Hb).
  assert (Hns : not_slash c = true)
    by (unfold not_slash; destruct (Ascii.eqb_spec c "/"); [contradiction|reflexivity]).
  split.
  - unfold basename. rewrite Hr, take_while_app_all by exact Hb'. simpl.
    rewrite str_app_nil_r. apply rev_string_involutive.
  - unfold dirname. rewrite Hr, drop_while_all by exact Hb'. simpl.
    unfold not_slash in Hns.
    destruct (Ascii.eqb c "/") eqn:E; [discriminate|]. simpl.
    rewrite rev_string_involutive. reflexivity.
Qed.

Lemma basename_dirname_split_witness :
  basename (("http://s/di" ++ String "r" "") ++ "/" ++ "s.json")%string = "s.json" /\
  dirname (("http://s/di" ++ String "r" "") ++ "/" ++ "s.json")%string = "http://s/dir".
Proof.
  exact (basename_dirname_split "http://s/di" "r" "s.json" ltac:(discriminate) eq_refl).
Defined.

(** ** The [messages] dict *)

Lemma dict_get_in : forall {V} k (v : V) d, dict_get k d = Some v -> In (k, v) d.
Proof.
  induction d as [|[k0 v0] d IH]; simpl; intros H; [discriminate|].
  destruct (String.eqb_spec k k0) as [->|]; [injection H as ->; auto|auto].
Qed.

Lemma dict_set_in_nodup : forall {V} k k' (v v' : V) d,
  NoDup (map fst d) ->
  In (k', v') (dict_set k v d) -> (k' = k /\ v' = v) \/ (k' <> k /\ In (k', v') d).
Proof.
  induction d as [|[k0 v0] d IH]; simpl; intros Hnd H.
  - destruct H as [H|[]]. injection H as -> ->. auto.
  - inversion Hnd as [|? ? Hn Hnd']; subst.
    destruct (String.eqb_spec k k0) as [->|Hne].
    + destruct H as [H|H]; [injection H as -> ->; auto|].
      right. split; [|auto]. intros ->. apply Hn. apply (in_map fst _ (k0, v') H).
    + destruct H as [H|H].
      * injection H as -> ->. right. split; [intros ->; exact (Hne eq_refl)|auto].
      * destruct (IH Hnd' H) as [?|[? ?]]; auto.
Qed.

Lemma well_grouped_set : forall g a by_study,
  well_grouped g ->
  NoDup (map fst by_study) -> (forall study l, In (study, l) by_study -> l <> []) ->
  well_grouped (dict_set a by_study g).
Proof.
  intros g a by_study [Hnd Hg] Hb Hl. split; [apply dict_set_nodup, Hnd|].
  intros a' bs' Hin. apply dict_set_in_nodup in Hin as [[-> ->]|[_ Hin]];
    [split; assumption|exact (Hg _ _ Hin)|exact Hnd].
Qed.

Lemma well_grouped_add_study : forall g a study mp,
  well_grouped g -> well_grouped (add_study g a study mp).
Proof.
  intros g a study mp Hg. unfold add_study.
  destruct (dict_get a g) as [bs|] eqn:Ha.
  - rewrite Ha. destruct (proj2 Hg a bs (dict_get_in _ _ _ Ha)) as [Hbnd Hbl].
    assert (Hstudy : forall X, X <> [] ->
              well_grouped (dict_set a (dict_set study X bs) g)).
    { intros X HX. apply well_grouped_set; [exact Hg|apply dict_set_nodup, Hbnd|].
      intros s l Hin. apply dict_set_in_nodup in Hin as [[-> ->]|[_ Hin]];
        [exact HX|exact (Hbl s l Hin)|exact Hbnd]. }
    destruct (dict_get study bs) as [l|].
    + apply Hstudy. destruct l; discriminate.
    + apply Hstudy. discriminate.
  - rewrite dict_get_set, String.eqb_refl. simpl. rewrite String.eqb_refl. simpl.
    assert (Hg1 : NoDup (map fst (dict_set a [(study, [])] g)))
      by (apply dict_set_nodup, (proj1 Hg)).
    split; [apply dict_set_nodup, Hg1|].
    intros a' bs' Hin. apply dict_set_in_nodup in Hin as [[-> ->]|[Hne Hin]]; [| |exact Hg1].
    + split; [repeat constructor; intros []|]. intros s l [Hs|[]].
      injection Hs as _ <-. discriminate.
    + apply dict_set_in_nodup in Hin as [[-> _]|[_ Hin]];
        [contradiction|exact (proj2 Hg _ _ Hin)|exact (proj1 Hg)].
Qed.

Lemma well_grouped_add_record : forall studies g a mp,
  well_grouped g -> well_grouped (add_record g a studies mp).
Proof.
  unfold add_record. induction studies as [|s studies IH]; simpl; intros g a mp Hg;
    [exact Hg|].
  apply IH, well_grouped_add_study, Hg.
Qed.

(** The [messages] dict built by the records loop of [lambda_handler] has
    each app once, each study once under its app, and no empty group: every
    Glue workflow the handler starts receives at least one record, and no
    (app, study) pair is dispatched twice. *)
Theorem process_records_well_grouped : forall env am records t g t',
  process_records env am records [] [] t = (Ok g, t') -> well_grouped g.
Proof.
  intros env am records t g t' H. apply process_records_groups in H. subst g.
  assert (Hg : forall g0, well_grouped g0 ->
    well_grouped (fold_left (fun g m => add_record g (msg_appId m) (studyRecords m) (params_of m))
                            records g0)).
  { induction records as [|m records IH]; simpl; intros g0 H0; [exact H0|].
    apply IH, well_grouped_add_record, H0. }
  apply Hg. split; [constructor|intros a bs []].
Qed.

Lemma process_records_well_grouped_witness :
  process_records Sample.env_run Sample.am_run [Sample.rec1; Sample.rec2] [] [] []
    = (Ok Sample.groups_12, Sample.trace_12) /\
  well_grouped Sample.groups_12.
Proof.
  assert (H : process_records Sample.env_run Sample.am_run [Sample.rec1; Sample.rec2] [] [] []
                = (Ok Sample.groups_12, Sample.trace_12)) by (vm_compute; reflexivity).
  split; [exact H|]. exact (process_records_well_grouped _ _ _ _ _ _ H).
Defined.

(** ** The Glue calls of [lambda_handler] *)

Lemma dispatch_studies_ok : forall env a by_study t u t',
  dispatch_studies env a by_study t = (Ok u, t') ->
  t' = (t ++ glue_calls env (map (fun q => (a, fst q, snd q)) by_study))%list.
Proof.
  induction by_study as [|[study msgs] by_study IH]; simpl; intros t u t' H.
  - unfold ret in H. injection H as _ <-. rewrite app_nil_r. reflexivity.
  - apply bind_ok_inv in H as (rid & t1 & Hs & H). apply call_ok_inv in Hs as [Hs ->].
    apply bind_ok_inv in H as (v & t2 & Hp & H). apply call_ok_inv in Hp as [_ ->].
    rewrite (IH _ _ _ H), Hs. rewrite <- !app_assoc. reflexivity.
Qed.

Lemma glue_calls_app : forall env p1 p2,
  glue_calls env (p1 ++ p2) = (glue_calls env p1 ++ glue_calls env p2)%list.
Proof. intros. unfold glue_calls. apply flat_map_app. Qed.

Lemma dispatch_ok : forall env g t u t',
  dispatch env g t = (Ok u, t') -> t' = (t ++ glue_calls env (glue_plan g))%list.
Proof.
  induction g as [|[a by_study] g IH]; simpl; intros t u t' H.
  - unfold ret in H. injection H as _ <-. rewrite app_nil_r. reflexivity.
  - apply bind_ok_inv in H as (v & t1 & Hd & H).
    rewrite (IH _ _ _ H), (dispatch_studies_ok _ _ _ _ _ _ Hd).
    unfold glue_plan. simpl. fold (glue_plan g).
    rewrite glue_calls_app, app_assoc. reflexivity.
Qed.

(** A run of [lambda_handler] that completes first makes all the calls of
    the records loop (none of them a Glue call), then, for each (app, study)
    group of the records in order of first appearance, starts one workflow
    run named after the group and gives that run the group's message
    parameters, under the run id the start returned. *)
Theorem lambda_handler_ok_trace : forall env am records t u t',
  lambda_handler env am records t = (Ok u, t') ->
  exists s, t' = (t ++ s ++ glue_calls env (glue_plan (aggregate records)))%list /\
            Forall no_glue s.
Proof.
  unfold lambda_handler. intros env am records t u t' H.
  apply bind_ok_inv in H as (g & t1 & Hp & H).
  pose proof (process_records_groups _ _ _ _ _ _ _ _ Hp) as Hg.
  destruct (quiet_process_records env am records [] [] t _ _ Hp) as (s & -> & F).
  exists s. split; [|exact F].
  rewrite (dispatch_ok _ _ _ _ _ H), Hg, app_assoc. reflexivity.
Qed.

Lemma lambda_handler_ok_trace_witness :
  lambda_handler Sample.env_run Sample.am_run [Sample.rec1; Sample.rec2] []
    = (Ok tt, Sample.run_12) /\
  exists s, Sample.run_12
            = ([] ++ s ++ glue_calls Sample.env_run
                            (glue_plan (aggregate [Sample.rec1; Sample.rec2])))%list /\
            Forall no_glue s.
Proof.
  assert (H : lambda_handler Sample.env_run Sample.am_run [Sample.rec1; Sample.rec2] []
                = (Ok tt, Sample.run_12)) by (vm_compute; reflexivity).
  split; [exact H|].
  exact (lambda_handler_ok_trace _ _ _ _ _ _ H).
Defined.

(** ** Where a resolved URL comes from *)

Lemma first_file_sound : forall fs f u,
  first_file fs f = Some u -> exists fe, In fe fs /\ filename fe = f /\ jsonSchema fe = u.
Proof.
  induction fs as [|g fs IH]; simpl; intros f u H; [discriminate|].
  destruct (String.eqb_spec (filename g) f) as [E|_].
  - injection H as <-. eauto.
  - destruct (IH _ _ H) as (fe & ? & ? & ?). eauto.
Qed.

Lemma assessment_loop_sound : forall l f aid rev u,
  assessment_loop l f aid rev = Some u ->
  exists a fe, In a l /\ assessment_matches aid rev a = true /\ In fe (files a) /\
               filename fe = f /\ jsonSchema fe = u.
Proof.
  induction l as [|a l IH]; simpl; intros f aid rev u H; [discriminate|].
  destruct (assessment_matches aid rev a) eqn:Hm.
  - destruct (first_file (files a) f) as [u'|] eqn:Hf.
    + injection H as <-. destruct (first_file_sound _ _ _ Hf) as (fe & ? & ? & ?).
      exists a, fe. auto.
    + destruct (IH _ _ _ _ H) as (a' & fe & ? & ? & ? & ? & ?). exists a', fe. auto.
  - destruct (IH _ _ _ _ H) as (a' & fe & ? & ? & ? & ? & ?). exists a', fe. auto.
Qed.

Lemma first_any_sound : forall l f u,
  first_any l f = Some u -> exists e, In e l /\ any_filename e = f /\ any_jsonSchema e = Some u.
Proof.
  induction l as [|e l IH]; simpl; intros f u H; [discriminate|].
  destruct (any_jsonSchema e) as [u'|] eqn:Hs.
  - destruct (String.eqb_spec (any_filename e) f) as [E|_].
    + injection H as <-. eauto.
    + destruct (IH _ _ H) as (e' & ? & ? & ?). eauto.
  - destruct (IH _ _ H) as (e' & ? & ? & ?). eauto.
Qed.

(** An app-tier origin of the URL [u] for [f]. *)
Lemma app_loop_sound : forall l f app_id aid rev o u,
  url (app_loop l f app_id aid rev o) = Some u ->
  url o = Some u \/
  exists ap fe, In ap l /\ py_eq_str (appId ap) app_id = true /\ declares aid rev ap = true /\
                (In fe (default_files ap) \/ In fe (app_anyOf ap)) /\
                filename fe = f /\ jsonSchema fe = u.
Proof.
  unfold app_loop. induction l as [|ap l IH]; simpl; intros f app_id aid rev o u H; [auto|].
  destruct (IH _ _ _ _ _ _ H) as [Ho|(ap' & fe & ? & ? & ? & ? & ? & ?)];
    [|right; exists ap', fe; auto 6].
  unfold app_step in Ho.
  destruct (py_eq_str (appId ap) app_id) eqn:Hid; [|auto].
  destruct (declares aid rev ap) eqn:Hd; [|simpl in Ho; auto].
  destruct (first_file (app_anyOf ap) f) as [ua|] eqn:Ha.
  - simpl in Ho. injection Ho as <-. destruct (first_file_sound _ _ _ Ha) as (fe & ? & ? & ?).
    right. exists ap, fe. auto 7.
  - destruct (first_file (default_files ap) f) as [ud|] eqn:Hdf.
    + simpl in Ho. injection Ho as <-.
      destruct (first_file_sound _ _ _ Hdf) as (fe & ? & ? & ?).
      right. exists ap, fe. auto 7.
    + simpl in Ho. auto.
Qed.

Lemma app_loop_error : forall l f app_id aid rev o,
  error (app_loop l f app_id aid rev o) = error o.
Proof.
  unfold app_loop. induction l as [|ap l IH]; simpl; intros f app_id aid rev o; [reflexivity|].
  rewrite IH. unfold app_step.
  destruct (py_eq_str _ _); [|reflexivity].
  destruct (declares _ _ _); [|reflexivity].
  destruct (first_file (app_anyOf ap) f), (first_file (default_files ap) f); reflexivity.
Qed.

(** [get_json_schema] never invents a URL and never reports an error: a
    URL it returns for [file_name] is the [jsonSchema] of an entry named
    [file_name] in the archive map, either in the [files] of an assessment
    entry matching the assessment id and revision, or in the [default.files]
    or [anyOf] of an app entry whose [appId] equals the app id and which
    declares that assessment, or in the top-level [anyOf]; and its [error]
    is always unset. *)
Theorem get_json_schema_sound : forall am f app_id aid rev v,
  error (get_json_schema am f app_id aid rev v) = None /\
  forall u, url (get_json_schema am f app_id aid rev v) = Some u ->
  (exists a fe, In a (assessments am) /\ assessment_matches aid rev a = true /\
                In fe (files a) /\ filename fe = f /\ jsonSchema fe = u) \/
  (exists ap fe, In ap (apps am) /\ py_eq_str (appId ap) app_id = true /\
                 declares aid rev ap = true /\
                 (In fe (default_files ap) \/ In fe (app_anyOf ap)) /\
                 filename fe = f /\ jsonSchema fe = u) \/
  (exists e, In e (anyOf am) /\ any_filename e = f /\ any_jsonSchema e = Some u).
Proof.
  intros am f app_id aid rev v. unfold get_json_schema.
  destruct (assessment_loop (assessments am) f aid rev) as [u0|] eqn:Ha.
  - split; [reflexivity|]. intros u Hu. simpl in Hu. injection Hu as <-.
    left. exact (assessment_loop_sound _ _ _ _ _ Ha).
  - set (o0 := {| url := None; allowed_app_specific_files := None; error := None;
                  archive_map_version := v |}).
    assert (He : error (app_loop (apps am) f app_id aid rev o0) = None)
      by (rewrite app_loop_error; reflexivity).
    destruct (url (app_loop (apps am) f app_id aid rev o0)) as [u1|] eqn:Hu1.
    + split; [exact He|]. intros u Hu. rewrite Hu1 in Hu. injection Hu as <-.
      destruct (app_loop_sound _ _ _ _ _ _ _ Hu1) as [Ho|Happ]; [discriminate|].
      right; left. exact Happ.
    + destruct (first_any (anyOf am) f) as [u2|] eqn:Hg.
      * split; [exact He|]. intros u Hu. simpl in Hu. injection Hu as <-.
        right; right. exact (first_any_sound _ _ _ Hg).
      * split; [exact He|]. intros u Hu. rewrite Hu1 in Hu. discriminate.
Qed.

(** ** Workflow names do not separate apps from studies *)

Lemma str_length_app : forall a b : string,
  String.length (a ++ b)%string = String.length a + String.length b.
Proof. induction a as [|c a IH]; intros; simpl; [reflexivity|rewrite IH; reflexivity]. Qed.

(** The name [f"{namespace}-{app}-{study}-S3ToJsonWorkflow"] built by
    [lambda_handler] is not injective in the pair (app, study): the app
    [a-b] with study [s] and the app [a] with study [b-s] are different
    groups of [messages] that start runs of the same workflow. *)
Theorem workflow_name_collision : forall env a b s,
  (a ++ "-" ++ b)%string <> a /\
  workflow_name env (a ++ "-" ++ b) s = workflow_name env a (b ++ "-" ++ s).
Proof.
  intros env a b s. split.
  - intro E. apply (f_equal String.length) in E.
    rewrite str_length_app in E. simpl in E. lia.
  - unfold workflow_name. rewrite !str_app_assoc. reflexivity.
Qed.

Lemma get_json_schema_sound_witness :
  url (get_json_schema Sample.am_both "x.json" (JStr "mobile-toolbox") "A1" 1 None)
    = Some "http://s/anyof.json" /\
  ((exists a fe, In a (assessments Sample.am_both) /\ assessment_matches "A1" 1 a = true /\
                 In fe (files a) /\ filename fe = "x.json" /\ jsonSchema fe = "http://s/anyof.json") \/
   (exists ap fe, In ap (apps Sample.am_both) /\
                  py_eq_str (appId ap) (JStr "mobile-toolbox") = true /\
                  declares "A1" 1 ap = true /\
                  (In fe (default_files ap) \/ In fe (app_anyOf ap)) /\
                  filename fe = "x.json" /\ jsonSchema fe = "http://s/anyof.json") \/
   (exists e, In e (anyOf Sample.am_both) /\ any_filename e = "x.json" /\
              any_jsonSchema e = Some "http://s/anyof.json")).
Proof.
  assert (H : url (get_json_schema Sample.am_both "x.json" (JStr "mobile-toolbox") "A1" 1 None)
              = Some "http://s/anyof.json") by (vm_compute; reflexivity).
  split; [exact H|].
  exact (proj2 (get_json_schema_sound Sample.am_both "x.json" (JStr "mobile-toolbox") "A1" 1 None)
           "http://s/anyof.json" H).
Defined.
